(** * Stats service: call records and the three aggregate queries

    A shallow embedding of [index.js] (the four [/stats] handlers) and of
    [statisticModel.js] (the mongoose schema, in its two variants: [timestamp]
    typed [String] and typed [Date]).

    The handlers are thin: everything they compute goes through mongoose and
    the MongoDB aggregation pipeline.  The collection is a list of documents
    in insertion order; a handler is a function from the request and the
    collection to the new collection and the HTTP response.  What the code
    leaves to its surroundings is an explicit argument:
    - [Runtime]: the locale-dependent rendering of [Date.prototype.toLocaleString]
      and the reading of such a text by mongoose's [Date] cast;
    - [castUrl]: the cast that the schema applies to [url], for
      [POST /stats] on a [calledService] of any kind ([post_stats_request]);
      mongoose's own is [Mongoose.castString];
    - [World]: what one request meets: whether the store answers, the clock,
      and the order in which the engine hands out documents and groups
      (MongoDB promises none, neither for [$group] output nor among equal
      sort keys). *)

From Stdlib Require Import List Bool Arith ZArith Lia String Ascii Permutation.
From Stdlib Require Import DecimalString DecimalN DecimalPos.
Import ListNotations.

Set Implicit Arguments.

(** ** Dates *)

Module JsDate.

Local Open Scope Z_scope.

(** A JS [Date] is a number of milliseconds since the epoch. *)
Definition t := Z.

Record Civil := mkCivil {
  year : Z; month : Z; day : Z;
  hour : Z; minute : Z; second : Z
}.

(** Days since 1970-01-01 to proleptic Gregorian year, month, day. *)
Definition civil_from_days (days : Z) : Z * Z * Z :=
  let z := days + 719468 in
  let era := z / 146097 in
  let doe := z - era * 146097 in
  let yoe := (doe - doe / 1460 + doe / 36524 - doe / 146096) / 365 in
  let doy := doe - (365 * yoe + yoe / 4 - yoe / 100) in
  let mp := (5 * doy + 2) / 153 in
  let d := doy - (153 * mp + 2) / 5 + 1 in
  let m := if mp <? 10 then mp + 3 else mp - 9 in
  let y := yoe + era * 400 + (if m <=? 2 then 1 else 0) in
  (y, m, d).

Definition days_from_civil (y m d : Z) : Z :=
  let y' := y - (if m <=? 2 then 1 else 0) in
  let era := y' / 400 in
  let yoe := y' - era * 400 in
  let doy := (153 * (if 2 <? m then m - 3 else m + 9) + 2) / 5 + d - 1 in
  let doe := yoe * 365 + yoe / 4 - yoe / 100 + doy in
  era * 146097 + doe - 719468.

(** The wall-clock fields of a date, in UTC. *)
Definition civil (ms : t) : Civil :=
  let secs := ms / 1000 in
  let days := secs / 86400 in
  let sod := secs mod 86400 in
  let '(y, m, d) := civil_from_days days in
  mkCivil y m d (sod / 3600) ((sod mod 3600) / 60) (sod mod 60).

Definition of_civil (c : Civil) : t :=
  (days_from_civil (year c) (month c) (day c) * 86400
   + hour c * 3600 + minute c * 60 + second c) * 1000.

End JsDate.

(** ** Text helpers *)

Definition digits (n : Z) : string :=
  NilZero.string_of_uint (N.to_uint (Z.to_N n)).

Definition digits2 (n : Z) : string :=
  if (n <? 10)%Z then ("0" ++ digits n)%string else digits n.

Definition is_digit (c : ascii) : bool :=
  ((48 <=? nat_of_ascii c) && (nat_of_ascii c <=? 57))%nat.

Definition digit_value (c : ascii) : Z := Z.of_nat (nat_of_ascii c - 48).

Fixpoint read_digits (s : string) (acc : option Z) : option Z * string :=
  match s with
  | String c rest =>
      if is_digit c
      then read_digits rest
             (Some (10 * (match acc with Some n => n | None => 0 end)
                    + digit_value c)%Z)
      else (acc, s)
  | EmptyString => (acc, s)
  end.

Definition number (s : string) : option (Z * string) :=
  match read_digits s None with
  | (Some n, rest) => Some (n, rest)
  | (None, _) => None
  end.

Fixpoint lit (p s : string) : option string :=
  match p, s with
  | EmptyString, _ => Some s
  | String a p', String b s' => if Ascii.eqb a b then lit p' s' else None
  | String _ _, EmptyString => None
  end.

Notation "'let?' x ':=' e 'in' k" :=
  (match e with Some x => k | None => None end)
  (at level 10, x pattern, e at level 100, k at level 200).

(** ** The runtime: locale rendering and the [Date] cast *)

Record Runtime := mkRuntime {
  toLocaleString : JsDate.t -> string;
  castDate : string -> option JsDate.t
}.

Module EnUS.

Local Open Scope Z_scope.
Local Open Scope string_scope.

(** [new Date(ms).toLocaleString()] under the [en-US] locale, time zone
    UTC: [M/D/YYYY, h:mm:ss AM] (12-hour clock, minutes and seconds on two
    digits, nothing else padded). *)
Definition render (ms : JsDate.t) : string :=
  let c := JsDate.civil ms in
  let h12 := if (JsDate.hour c mod 12 =? 0)%Z then 12 else JsDate.hour c mod 12 in
  digits (JsDate.month c) ++ "/" ++ digits (JsDate.day c) ++ "/"
    ++ digits (JsDate.year c) ++ ", "
    ++ digits h12 ++ ":" ++ digits2 (JsDate.minute c) ++ ":"
    ++ digits2 (JsDate.second c) ++ " "
    ++ (if (JsDate.hour c <? 12)%Z then "AM" else "PM").

Definition meridiem (s : string) : option Z :=
  if String.eqb s "AM" then Some 0
  else if String.eqb s "PM" then Some 12
  else None.

(** A year given below 100: below 50 it counts from 2000, from 50 on
    from 1900. *)
Definition century (y : Z) : Z :=
  (if y <? 50 then y + 2000 else if y <? 100 then y + 1900 else y)%Z.

(** [new Date(text)] on such a text, as mongoose's [Date] cast calls it:
    with [AM] or [PM] the hour may be 0 to 12.  [None] is an invalid date,
    which the cast refuses.  Only texts of the shape that [render] produces
    are read here; [new Date] accepts texts of other shapes too, and those
    are outside this model. *)
Definition read (text : string) : option JsDate.t :=
  let? (mo, s) := number text in
  let? s := lit "/" s in
  let? (d, s) := number s in
  let? s := lit "/" s in
  let? (y, s) := number s in
  let? s := lit ", " s in
  let? (h, s) := number s in
  let? s := lit ":" s in
  let? (mi, s) := number s in
  let? s := lit ":" s in
  let? (se, s) := number s in
  let? s := lit " " s in
  let? pm := meridiem s in
  if ((1 <=? mo) && (mo <=? 12) && (1 <=? d) && (d <=? 31)
      && (h <=? 12) && (mi <? 60) && (se <? 60))%Z
  then Some (JsDate.of_civil
               (JsDate.mkCivil (century y) mo d (h mod 12 + pm) mi se))
  else None.

Definition runtime : Runtime := mkRuntime render read.

End EnUS.

(** ** statisticModel.js: the schema and its documents *)

(** The two variants of [statisticSchema] differ in the type of
    [timestamp]. *)
Inductive TimestampType := TypeString | TypeDate.

(** A stored [timestamp]: a text under [TypeString], a date under
    [TypeDate]. *)
Inductive Timestamp :=
| TText (s : string)
| TDate (d : JsDate.t).

(** A [Statistic] document.  [url] is [None] when the field is not set.
    The [_id] and [__v] that mongoose adds play no part in any query of
    [index.js] and are left out. *)
Record Statistic := mkStatistic {
  url : option string;
  timestamp : Timestamp
}.

(** The order in which MongoDB sorts the stored values: texts by their
    bytes, dates by their instant, and every text before every date. *)
Definition timestamp_leb (a b : Timestamp) : bool :=
  match a, b with
  | TText s1, TText s2 => String.leb s1 s2
  | TDate d1, TDate d2 => Z.leb d1 d2
  | TText _, TDate _ => true
  | TDate _, TText _ => false
  end.

Definition url_eqb (a b : option string) : bool :=
  match a, b with
  | Some s1, Some s2 => String.eqb s1 s2
  | None, None => true
  | _, _ => false
  end.

(** ** The aggregation stages *)

(** A document leaving [{ $group: { _id: "$url", count: { $sum: 1 } } }].
    A missing [url] groups under [_id: null]. *)
Record Group := mkGroup {
  _id : option string;
  count : nat
}.

(** A document leaving [{ $project: { url: "$_id", count: 1, _id: 0 } }]. *)
Record UrlCount := mkUrlCount {
  uc_url : option string;
  uc_count : nat
}.

(** One document enters the accumulator of its group. *)
Fixpoint tally (k : option string) (acc : list Group) : list Group :=
  match acc with
  | [] => [mkGroup k 1]
  | g :: rest =>
      if url_eqb k (_id g)
      then mkGroup (_id g) (S (count g)) :: rest
      else g :: tally k rest
  end.

(** [$group], the groups in order of first appearance. *)
Definition group_by_url (docs : list Statistic) : list Group :=
  fold_left (fun acc d => tally (url d) acc) docs [].

Definition project (gs : list Group) : list UrlCount :=
  map (fun g => mkUrlCount (_id g) (count g)) gs.

Definition limit {A} (n : nat) (l : list A) : list A := firstn n l.

Section SortDesc.

Variable A : Type.
Variable leb : A -> A -> bool.

(** Descending insertion; among equal keys the earlier document stays
    first. *)
Fixpoint insert_desc (x : A) (l : list A) : list A :=
  match l with
  | [] => [x]
  | y :: l' => if leb y x then x :: y :: l' else y :: insert_desc x l'
  end.

Definition sort_desc (l : list A) : list A := fold_right insert_desc [] l.

End SortDesc.

Definition count_leb (g h : Group) : bool := Nat.leb (count g) (count h).

Definition by_timestamp (a b : Statistic) : bool :=
  timestamp_leb (timestamp a) (timestamp b).

(** ** What a request meets *)

(** MongoDB fixes neither the order in which a scan yields the documents
    nor the order of the groups leaving [$group]; a sort keeps whatever
    order its input has among equal keys.  An [Engine] is one such
    choice. *)
Record Engine := mkEngine {
  scan : list Statistic -> list Statistic;
  scan_perm : forall l, Permutation (scan l) l;
  emit : list Group -> list Group;
  emit_perm : forall l, Permutation (emit l) l
}.

Definition insertion_order : Engine :=
  mkEngine (fun l => l) (fun l => Permutation_refl l)
           (fun l => l) (fun l => Permutation_refl l).

Definition reverse_order : Engine :=
  mkEngine (@rev Statistic) (fun l => Permutation_sym (Permutation_rev l))
           (@rev Group) (fun l => Permutation_sym (Permutation_rev l)).

Record World := mkWorld {
  reachable : bool;     (* does the store answer during this request *)
  clock : JsDate.t;     (* what [new Date()] reads *)
  engine : Engine
}.

(** A promise settles: it resolves with a value or rejects. *)
Inductive Outcome (A : Type) :=
| Resolved (a : A)
| Rejected.
Arguments Resolved {A} a.
Arguments Rejected {A}.

(** ** HTTP responses *)

Inductive Json :=
| JNull
| JStatistic (s : Statistic)
| JUrlCount (r : UrlCount)
| JUrlCounts (l : list UrlCount)
| JError (error : string).

Record Response := mkResponse {
  status : nat;
  body : Json
}.

Definition internal_server_error : Response :=
  mkResponse 500 (JError "Internal Server Error").

Definition no_statistics : Response :=
  mkResponse 404 (JError "No statistics available").

(** The body of [req] in [POST /stats], after [express.json()], when
    [calledService] is a text or is not there ([None]).  The handler on a
    [calledService] of any kind is [post_stats_request], further down. *)
Record Body := mkBody {
  calledService : option string
}.

(** ** index.js *)

Section Service.

Variable schema : TimestampType.
Variable rt : Runtime.

(** The schema casts the text given for [timestamp]. *)
Definition cast_timestamp (text : string) : option Timestamp :=
  match schema with
  | TypeString => Some (TText text)
  | TypeDate => option_map TDate (castDate rt text)
  end.

(** [new Statistic({ url, timestamp }).save()]: rejects when the store
    does not answer or the document does not validate, and then writes
    nothing. *)
Definition save (w : World) (u : option string) (text : string)
           (coll : list Statistic) : Outcome (list Statistic * Statistic) :=
  if reachable w then
    match cast_timestamp text with
    | Some ts =>
        let newStatistic := mkStatistic u ts in
        Resolved (coll ++ [newStatistic], newStatistic)
    | None => Rejected
    end
  else Rejected.

(** [Statistic.aggregate(pipeline)]. *)
Definition aggregate {A} (w : World) (pipeline : list Statistic -> A)
           (coll : list Statistic) : Outcome A :=
  if reachable w then Resolved (pipeline coll) else Rejected.

(** [Statistic.findOne().sort({ timestamp: -1 }).limit(1)]. *)
Definition latestStat (w : World) (coll : list Statistic)
  : Outcome (option Statistic) :=
  if reachable w
  then Resolved (hd_error (sort_desc by_timestamp (scan (engine w) coll)))
  else Rejected.

(** [$group, $sort { count: -1 }, $limit 1, $project]. *)
Definition mostCalledStat (w : World) : list Statistic -> Outcome (list UrlCount) :=
  aggregate w (fun docs =>
    project (limit 1 (sort_desc count_leb (emit (engine w) (group_by_url docs))))).

(** [$group, $project]. *)
Definition endpointCounts (w : World) : list Statistic -> Outcome (list UrlCount) :=
  aggregate w (fun docs => project (emit (engine w) (group_by_url docs))).

(** [GET /stats/latest] *)
Definition get_stats_latest (w : World) (coll : list Statistic) : Response :=
  match latestStat w coll with
  | Resolved (Some d) => mkResponse 200 (JStatistic d)
  | Resolved None => mkResponse 200 JNull
  | Rejected => internal_server_error
  end.

(** [GET /stats/most-called] *)
Definition get_stats_most_called (w : World) (coll : list Statistic) : Response :=
  match mostCalledStat w coll with
  | Resolved [] => no_statistics
  | Resolved (first :: _) => mkResponse 200 (JUrlCount first)
  | Rejected => internal_server_error
  end.

(** [GET /stats/endpoint-counts] *)
Definition get_stats_endpoint_counts (w : World) (coll : list Statistic) : Response :=
  match endpointCounts w coll with
  | Resolved [] => no_statistics
  | Resolved l => mkResponse 200 (JUrlCounts l)
  | Rejected => internal_server_error
  end.

(** [POST /stats]: the new collection and the response.  The
    [console.log(error)] of the [catch] leaves no trace in either. *)
Definition post_stats (w : World) (req : Body) (coll : list Statistic)
  : list Statistic * Response :=
  match save w (calledService req) (toLocaleString rt (clock w)) coll with
  | Resolved (coll', newStatistic) =>
      (coll', mkResponse 201 (JStatistic newStatistic))
  | Rejected => (coll, internal_server_error)
  end.

(** A run of [POST /stats] requests, each in its own world. *)
Fixpoint post_all (reqs : list (World * Body)) (coll : list Statistic)
  : list Statistic * list Response :=
  match reqs with
  | [] => (coll, [])
  | (w, req) :: rest =>
      let '(coll1, r) := post_stats w req coll in
      let '(coll2, rs) := post_all rest coll1 in
      (coll2, r :: rs)
  end.

End Service.

(** ** Vocabulary of the statements *)

Unset Implicit Arguments.

Definition url_eq_dec (a b : option string) : {a = b} + {a <> b}.
Proof. decide equality; apply string_dec. Defined.

(** How many documents of [docs] carry the endpoint [e]. *)
Definition calls_to (e : option string) (docs : list Statistic) : nat :=
  count_occ url_eq_dec (map url docs) e.

(** The count that a list of groups holds for the key [k]. *)
Fixpoint tallied (k : option string) (gs : list Group) : nat :=
  match gs with
  | [] => 0
  | g :: rest => if url_eqb k (_id g) then count g else tallied k rest
  end.

(** The facts that hold of the groups of [docs], in whatever order the
    engine emits them. *)
Record groups_of (docs : list Statistic) (gs : list Group) : Prop := {
  groups_nodup : NoDup (map _id gs);
  groups_ids : forall k, In k (map _id gs) <-> In k (map url docs);
  groups_count : forall g, In g gs -> count g = calls_to (_id g) docs;
  groups_total : list_sum (map count gs) = List.length docs
}.

(** The entries that a response carries: those of the sequence sent by
    [GET /stats/endpoint-counts], none for any other body. *)
Definition entries (r : Response) : list UrlCount :=
  match body r with
  | JUrlCounts l => l
  | _ => []
  end.

(** The endpoints of the requests of a run that were answered [201], in
    the order of the run. *)
Fixpoint recorded (reqs : list (World * Body)) (rs : list Response)
  : list (option string) :=
  match reqs, rs with
  | (_, req) :: reqs', r :: rs' =>
      if status r =? 201
      then calledService req :: recorded reqs' rs'
      else recorded reqs' rs'
  | _, _ => []
  end.

(** The count carried by an answer of [GET /stats/most-called], and the
    [timestamp] carried by an answer of [GET /stats/latest]. *)
Definition called_count (r : Response) : option nat :=
  match body r with
  | JUrlCount e => Some (uc_count e)
  | _ => None
  end.

Definition latest_timestamp (r : Response) : option Timestamp :=
  match body r with
  | JStatistic d => Some (timestamp d)
  | _ => None
  end.

Definition up (t : JsDate.t) : World := mkWorld true t insertion_order.

Definition down (t : JsDate.t) : World := mkWorld false t insertion_order.

(** ** Sample data *)

Module Sample.

Local Open Scope string_scope.

(** 14 November 2023, 9, 10 and 11 o'clock in the morning, UTC. *)
Definition nine : JsDate.t := 1699952400000%Z.
Definition ten : JsDate.t := 1699956000000%Z.
Definition eleven : JsDate.t := 1699959600000%Z.

Definition checkout : Body := mkBody (Some "checkout").
Definition inventory : Body := mkBody (Some "inventory").

(** Two calls to [checkout], then one to [inventory]. *)
Definition scenario : list (World * Body) :=
  [(up nine, checkout); (up ten, checkout); (up eleven, inventory)].

(** Dated documents. *)
Definition dated : list Statistic :=
  [mkStatistic (Some "checkout") (TDate nine);
   mkStatistic (Some "inventory") (TDate eleven);
   mkStatistic (Some "checkout") (TDate ten)].

(** Two endpoints, two calls each. *)
Definition tied : list Statistic :=
  [mkStatistic (Some "checkout") (TDate nine);
   mkStatistic (Some "inventory") (TDate nine);
   mkStatistic (Some "checkout") (TDate ten);
   mkStatistic (Some "inventory") (TDate ten)].

Definition later : World := up eleven.
Definition later_reversed : World := mkWorld true eleven reverse_order.

End Sample.

(** ** Vocabulary of the further statements *)

(** The count that a sequence of entries holds for the endpoint [e], 0
    when it has no entry for it. *)
Fixpoint count_for (e : option string) (l : list UrlCount) : nat :=
  match l with
  | [] => 0
  | x :: rest => if url_eqb e (uc_url x) then uc_count x else count_for e rest
  end.

(** Was the request answered [201]. *)
Definition created (r : Response) : bool := status r =? 201.

Definition timestamp_eq_dec (a b : Timestamp) : {a = b} + {a <> b}.
Proof. decide equality; [apply string_dec | apply Z.eq_dec]. Defined.

Definition statistic_eq_dec (a b : Statistic) : {a = b} + {a <> b}.
Proof. decide equality; [apply timestamp_eq_dec | apply url_eq_dec]. Defined.

(** A clock reading cut to the whole second. *)
Definition whole_second (ms : JsDate.t) : JsDate.t := (1000 * (ms / 1000))%Z.

(** The value that a run of decimal digits denotes, read from the left
    after [acc]. *)
Fixpoint uint_value (d : Decimal.uint) (acc : Z) : Z :=
  match d with
  | Decimal.Nil => acc
  | Decimal.D0 d' => uint_value d' (10 * acc + 0)
  | Decimal.D1 d' => uint_value d' (10 * acc + 1)
  | Decimal.D2 d' => uint_value d' (10 * acc + 2)
  | Decimal.D3 d' => uint_value d' (10 * acc + 3)
  | Decimal.D4 d' => uint_value d' (10 * acc + 4)
  | Decimal.D5 d' => uint_value d' (10 * acc + 5)
  | Decimal.D6 d' => uint_value d' (10 * acc + 6)
  | Decimal.D7 d' => uint_value d' (10 * acc + 7)
  | Decimal.D8 d' => uint_value d' (10 * acc + 8)
  | Decimal.D9 d' => uint_value d' (10 * acc + 9)
  end%Z.

(** ** [POST /stats] on any body *)

(** What [req.body.calledService] can be once the body is parsed: a JSON
    value, or nothing.  A number is given by the text that [toString]
    prints for it. *)
#[warnings="-register-all"]
Inductive Value :=
| VUndefined
| VNull
| VBool (b : bool)
| VNumber (printed : string)
| VText (s : string)
| VArray (items : list Value)
| VObject (fields : list (string * Value)).

Module Mongoose.

Local Open Scope string_scope.

(** The value of a key of an object; of two fields with one key the later
    one counts. *)
Fixpoint field (k : string) (fields : list (string * Value)) : option Value :=
  match fields with
  | [] => None
  | (k', v) :: rest =>
      match field k rest with
      | Some v' => Some v'
      | None => if String.eqb k k' then Some v else None
      end
  end.

(** mongoose's cast to [String]: nothing and [null] stay unset, a text is
    kept, a number or a boolean is printed, an object with a text that is
    not empty under [_id] gives that text, and every other object and every
    array is refused ([None], a [CastError]). *)
Definition castString (v : Value) : option (option string) :=
  match v with
  | VUndefined | VNull => Some None
  | VText s => Some (Some s)
  | VNumber printed => Some (Some printed)
  | VBool b => Some (Some (if b then "true" else "false"))
  | VArray _ => None
  | VObject fields =>
      match field "_id" fields with
      | Some (VText (String c s)) => Some (Some (String c s))
      | _ => None
      end
  end.

End Mongoose.

Section Requests.

Variable schema : TimestampType.
Variable rt : Runtime.

(** The cast that the schema applies to [url], typed [String]. *)
Variable castUrl : Value -> option (option string).

(** [POST /stats] on a body whose [calledService] is any value.  A value
    that the cast of [url] refuses makes [save()] reject on validation:
    nothing is written and the [catch] answers. *)
Definition post_stats_request (w : World) (calledService : Value)
           (coll : list Statistic) : list Statistic * Response :=
  match castUrl calledService with
  | Some u => post_stats schema rt w (mkBody u) coll
  | None => (coll, internal_server_error)
  end.

(** A run of such requests, each in its own world. *)
Fixpoint post_all_requests (reqs : list (World * Value))
         (coll : list Statistic) : list Statistic * list Response :=
  match reqs with
  | [] => (coll, [])
  | (w, v) :: rest =>
      let '(coll1, r) := post_stats_request w v coll in
      let '(coll2, rs) := post_all_requests rest coll1 in
      (coll2, r :: rs)
  end.

End Requests.

(** ** Further sample data *)

Module Autumn.

Local Open Scope string_scope.

(** 30 September 2023, 11 o'clock at night, and two hours later, 1 October
    2023, 1 o'clock in the morning, UTC. *)
Definition september : JsDate.t := 1696114800000%Z.
Definition october : JsDate.t := 1696122000000%Z.

Definition turn : list (World * Body) :=
  [(up september, Sample.checkout); (up october, Sample.inventory)].

(** A call that names its endpoint by an object, between two calls that
    name it by a text. *)
Definition mixed : list (World * Value) :=
  [(up Sample.nine, VText "checkout");
   (up Sample.ten, VObject [("name", VText "inventory")]);
   (up Sample.eleven, VText "inventory")].

End Autumn.

(** * Properties *)

(** ** The order of stored timestamps *)

Lemma string_leb_refl (s : string) : String.leb s s = true.
Proof. destruct (String.leb_total s s); assumption. Qed.

Lemma string_compare_trans_le (a b c : string) :
  String.compare a b <> Gt -> String.compare b c <> Gt ->
  String.compare a c <> Gt.
Proof.
  revert b c; induction a as [|x a IH]; intros [|y b] [|z c]; simpl;
    try congruence.
  unfold Ascii.compare.
  destruct (N.compare_spec (N_of_ascii x) (N_of_ascii y)) as [E1|L1|G1];
    destruct (N.compare_spec (N_of_ascii y) (N_of_ascii z)) as [E2|L2|G2];
    destruct (N.compare_spec (N_of_ascii x) (N_of_ascii z)) as [E3|L3|G3];
    try congruence; try lia; intros; eauto.
Qed.

Lemma string_leb_trans (a b c : string) :
  String.leb a b = true -> String.leb b c = true -> String.leb a c = true.
Proof.
  unfold String.leb; intros H1 H2.
  assert (H : String.compare a c <> Gt).
  { apply string_compare_trans_le with b.
    - destruct (String.compare a b); congruence.
    - destruct (String.compare b c); congruence. }
  destruct (String.compare a c); congruence.
Qed.

Lemma timestamp_leb_total (a b : Timestamp) :
  timestamp_leb a b = true \/ timestamp_leb b a = true.
Proof.
  destruct a, b; simpl; auto using String.leb_total.
  destruct (Z.leb_spec d d0); [left | right; apply Z.leb_le; lia]; reflexivity.
Qed.

Lemma timestamp_leb_trans (a b c : Timestamp) :
  timestamp_leb a b = true -> timestamp_leb b c = true ->
  timestamp_leb a c = true.
Proof.
  destruct a, b, c; simpl; try congruence; eauto using string_leb_trans.
  rewrite !Z.leb_le; lia.
Qed.

Lemma timestamp_leb_antisym (a b : Timestamp) :
  timestamp_leb a b = true -> timestamp_leb b a = true -> a = b.
Proof.
  destruct a, b; simpl; try congruence.
  - intros H1 H2; f_equal; apply String.leb_antisym; assumption.
  - rewrite !Z.leb_le; intros; f_equal; lia.
Qed.

(** ** Sorting in descending order *)

Section SortDescFacts.

Variable A : Type.
Variable leb : A -> A -> bool.
Hypothesis leb_total : forall x y, leb x y = true \/ leb y x = true.
Hypothesis leb_trans :
  forall x y z, leb x y = true -> leb y z = true -> leb x z = true.

Lemma insert_desc_perm (x : A) (l : list A) :
  Permutation (insert_desc leb x l) (x :: l).
Proof.
  induction l as [|y l IH]; simpl; [reflexivity|].
  destruct (leb y x); [reflexivity|].
  rewrite IH; apply perm_swap.
Qed.

Lemma sort_desc_perm (l : list A) : Permutation (sort_desc leb l) l.
Proof.
  induction l as [|x l IH]; simpl; [reflexivity|].
  rewrite insert_desc_perm; auto.
Qed.

Lemma sort_desc_nil (l : list A) : sort_desc leb l = [] -> l = [].
Proof.
  intros H; apply Permutation_nil.
  rewrite <- H; apply sort_desc_perm.
Qed.

(** The first document of a descending sort is above every document. *)
Lemma sort_desc_head (l : list A) (top : A) (rest : list A) :
  sort_desc leb l = top :: rest ->
  forall y, In y l -> leb y top = true.
Proof.
  revert top rest; induction l as [|x l IH]; intros top rest H y Hy.
  - destruct Hy.
  - simpl in H.
    destruct (sort_desc leb l) as [|h t] eqn:E.
    + apply sort_desc_nil in E; subst l.
      simpl in H; injection H as <- _.
      destruct Hy as [<-|[]].
      destruct (leb_total x x); assumption.
    + simpl in H.
      destruct (leb h x) eqn:Hhx; injection H as <- _.
      * destruct Hy as [<-|Hy].
        -- destruct (leb_total x x); assumption.
        -- apply leb_trans with h; [eapply IH; eauto | assumption].
      * destruct Hy as [<-|Hy].
        -- destruct (leb_total x h); congruence.
        -- eapply IH; eauto.
Qed.

Lemma sort_desc_head_in (l : list A) (top : A) (rest : list A) :
  sort_desc leb l = top :: rest -> In top l.
Proof.
  intros H.
  apply Permutation_in with (sort_desc leb l); [apply sort_desc_perm|].
  rewrite H; left; reflexivity.
Qed.

End SortDescFacts.

(** ** Grouping by [url] *)

Lemma url_eqb_spec (a b : option string) : reflect (a = b) (url_eqb a b).
Proof.
  destruct a as [s|], b as [t|]; simpl; try (constructor; congruence).
  destruct (String.eqb_spec s t); constructor; congruence.
Qed.

Lemma url_eqb_refl (a : option string) : url_eqb a a = true.
Proof. destruct (url_eqb_spec a a); congruence. Qed.

Lemma tally_tallied (k k' : option string) (acc : list Group) :
  tallied k' (tally k acc) = (if url_eqb k' k then 1 else 0) + tallied k' acc.
Proof.
  induction acc as [|g rest IH]; simpl.
  - destruct (url_eqb k' k); reflexivity.
  - destruct (url_eqb_spec k (_id g)) as [->|Hne]; simpl.
    + destruct (url_eqb k' (_id g)); reflexivity.
    + destruct (url_eqb_spec k' (_id g)) as [->|Hne'].
      * destruct (url_eqb_spec (_id g) k); [congruence | reflexivity].
      * apply IH.
Qed.

Lemma tally_ids (k k' : option string) (acc : list Group) :
  In k' (map _id (tally k acc)) <-> k' = k \/ In k' (map _id acc).
Proof.
  induction acc as [|g rest IH]; simpl.
  - intuition congruence.
  - destruct (url_eqb_spec k (_id g)) as [->|Hne]; simpl.
    + intuition congruence.
    + rewrite IH; intuition congruence.
Qed.

Lemma tally_nodup (k : option string) (acc : list Group) :
  NoDup (map _id acc) -> NoDup (map _id (tally k acc)).
Proof.
  induction acc as [|g rest IH]; simpl; intros H.
  - constructor; [intros [] | constructor].
  - inversion H as [|? ? Hnotin Hrest]; subst.
    destruct (url_eqb_spec k (_id g)) as [->|Hne]; simpl.
    + constructor; assumption.
    + constructor; [|auto].
      rewrite tally_ids; intros [Heq|Hin]; [congruence | contradiction].
Qed.

Lemma tally_total (k : option string) (acc : list Group) :
  list_sum (map count (tally k acc)) = S (list_sum (map count acc)).
Proof.
  induction acc as [|g rest IH]; simpl; [reflexivity|].
  destruct (url_eqb k (_id g)); simpl; [reflexivity|].
  rewrite IH; lia.
Qed.

Lemma tallied_of_member (g : Group) (gs : list Group) :
  NoDup (map _id gs) -> In g gs -> tallied (_id g) gs = count g.
Proof.
  induction gs as [|h rest IH]; simpl; intros Hnd Hin; [destruct Hin|].
  inversion Hnd as [|? ? Hnotin Hrest]; subst.
  destruct Hin as [->|Hin].
  - rewrite url_eqb_refl; reflexivity.
  - destruct (url_eqb_spec (_id g) (_id h)) as [E|_]; [|auto].
    exfalso; apply Hnotin; rewrite <- E; apply in_map; assumption.
Qed.

Lemma fold_tally (docs : list Statistic) (acc : list Group) :
  let gs := fold_left (fun acc d => tally (url d) acc) docs acc in
  (NoDup (map _id acc) -> NoDup (map _id gs))
  /\ (forall k, In k (map _id gs) <-> In k (map url docs) \/ In k (map _id acc))
  /\ (forall k, tallied k gs = calls_to k docs + tallied k acc)
  /\ list_sum (map count gs) = List.length docs + list_sum (map count acc).
Proof.
  revert acc; induction docs as [|d docs IH]; intros acc; simpl.
  - repeat split; auto; tauto.
  - destruct (IH (tally (url d) acc)) as (Hnd & Hids & Hcnt & Htot).
    repeat split.
    + intros H; apply Hnd, tally_nodup, H.
    + rewrite Hids, tally_ids; intuition congruence.
    + rewrite Hids, tally_ids; intuition congruence.
    + intros k; rewrite Hcnt, tally_tallied; unfold calls_to; simpl.
      destruct (url_eq_dec (url d) k) as [->|Hne].
      * rewrite url_eqb_refl; lia.
      * destruct (url_eqb_spec k (url d)); [congruence | lia].
    + rewrite Htot, tally_total; lia.
Qed.

Lemma group_by_url_spec (docs : list Statistic) :
  groups_of docs (group_by_url docs).
Proof.
  destruct (fold_tally docs []) as (Hnd & Hids & Hcnt & Htot).
  assert (Hnd' : NoDup (map _id (group_by_url docs))) by (apply Hnd; constructor).
  split.
  - exact Hnd'.
  - intros k; unfold group_by_url; rewrite Hids; simpl; tauto.
  - intros g Hg; unfold group_by_url in *.
    rewrite <- (tallied_of_member g _ Hnd' Hg).
    unfold group_by_url; rewrite Hcnt; simpl; lia.
  - unfold group_by_url; rewrite Htot; simpl; lia.
Qed.

Lemma list_sum_perm (l l' : list nat) :
  Permutation l l' -> list_sum l = list_sum l'.
Proof. induction 1; simpl; lia. Qed.

Lemma groups_of_perm (docs : list Statistic) (gs gs' : list Group) :
  Permutation gs' gs -> groups_of docs gs -> groups_of docs gs'.
Proof.
  intros P [Hnd Hids Hcnt Htot]; split.
  - apply Permutation_NoDup with (map _id gs); [|assumption].
    apply Permutation_map; symmetry; assumption.
  - intros k; rewrite <- Hids; split; apply Permutation_in, Permutation_map;
      [assumption | symmetry; assumption].
  - intros g Hg; apply Hcnt; eapply Permutation_in; eauto.
  - rewrite <- Htot; apply list_sum_perm, Permutation_map; assumption.
Qed.

Lemma emitted_groups (e : Engine) (docs : list Statistic) :
  groups_of docs (emit e (group_by_url docs)).
Proof.
  apply groups_of_perm with (group_by_url docs);
    [apply emit_perm | apply group_by_url_spec].
Qed.

Lemma groups_positive (docs : list Statistic) (gs : list Group) (g : Group) :
  groups_of docs gs -> In g gs -> 1 <= count g.
Proof.
  intros H Hg; rewrite (groups_count _ _ H g Hg).
  apply (count_occ_In url_eq_dec), (groups_ids _ _ H), in_map, Hg.
Qed.

Lemma groups_nonempty (docs : list Statistic) (gs : list Group) :
  groups_of docs gs -> (gs = [] <-> docs = []).
Proof.
  intros H; split; intros E; subst.
  - pose proof (groups_total _ _ H) as T; simpl in T.
    destruct docs; [reflexivity | discriminate].
  - pose proof (groups_total _ _ H) as T; simpl in T.
    destruct gs as [|g gs]; [reflexivity|].
    pose proof (groups_positive _ _ g H (or_introl eq_refl)) as P.
    simpl in T; lia.
Qed.

(** ** The handlers, when the store answers *)

Section Handlers.

Variable schema : TimestampType.
Variable rt : Runtime.

Lemma endpoint_counts_up (w : World) (coll : list Statistic) :
  reachable w = true ->
  let l := project (emit (engine w) (group_by_url coll)) in
  get_stats_endpoint_counts w coll
  = match coll with
    | [] => no_statistics
    | _ => mkResponse 200 (JUrlCounts l)
    end
  /\ entries (get_stats_endpoint_counts w coll) = l.
Proof.
  intros Hup l.
  unfold get_stats_endpoint_counts, endpointCounts, aggregate.
  rewrite Hup; fold l.
  pose proof (groups_nonempty coll _ (emitted_groups (engine w) coll)) as Hne.
  unfold l, project in *.
  destruct (emit (engine w) (group_by_url coll)) as [|g gs]; simpl.
  - destruct coll; [split; reflexivity|].
    destruct Hne as [Hne _]; discriminate (Hne eq_refl).
  - destruct coll; [|split; reflexivity].
    destruct Hne as [_ Hne]; discriminate (Hne eq_refl).
Qed.

Lemma project_in (r : UrlCount) (gs : list Group) :
  In r (project gs) <-> In (mkGroup (uc_url r) (uc_count r)) gs.
Proof.
  unfold project; rewrite in_map_iff; split.
  - intros ([k n] & <- & Hg); exact Hg.
  - intros H; exists (mkGroup (uc_url r) (uc_count r)); destruct r; auto.
Qed.

Lemma project_urls (gs : list Group) : map uc_url (project gs) = map _id gs.
Proof. unfold project; rewrite map_map; reflexivity. Qed.

Lemma project_counts (gs : list Group) :
  map uc_count (project gs) = map count gs.
Proof. unfold project; rewrite map_map; reflexivity. Qed.

Lemma post_all_recorded (reqs : list (World * Body)) (coll : list Statistic) :
  map url (fst (post_all schema rt reqs coll))
  = map url coll ++ recorded reqs (snd (post_all schema rt reqs coll)).
Proof.
  revert coll; induction reqs as [|[w req] reqs IH]; intros coll; simpl.
  - rewrite app_nil_r; reflexivity.
  - unfold post_stats, save.
    destruct (reachable w); [|].
    + destruct (cast_timestamp schema rt _) as [ts|].
      * specialize (IH (coll ++ [mkStatistic (calledService req) ts])).
        destruct (post_all schema rt reqs _) as [coll2 rs]; simpl in *.
        rewrite IH, map_app, <- app_assoc; reflexivity.
      * specialize (IH coll).
        destruct (post_all schema rt reqs coll) as [coll2 rs]; simpl in *.
        exact IH.
    + specialize (IH coll).
      destruct (post_all schema rt reqs coll) as [coll2 rs]; simpl in *.
      exact IH.
Qed.

End Handlers.

(** C1. After any run of [POST /stats] requests on an empty collection,
    [GET /stats/endpoint-counts] carries one entry per distinct endpoint
    recorded, each with the number of recorded calls to that endpoint — the
    recorded calls being those answered [201], which is every call of the
    run when the store accepts them all.  The answer is [200] with that
    sequence, or [404] when nothing was recorded, and then it has no
    entry. *)
Theorem endpoint_counts_after_records
  (schema : TimestampType) (rt : Runtime)
  (reqs : list (World * Body)) (w : World) :
  reachable w = true ->
  let run := post_all schema rt reqs [] in
  let calls := recorded reqs (snd run) in
  let r := get_stats_endpoint_counts w (fst run) in
  status r = (match calls with [] => 404 | _ => 200 end)
  /\ NoDup (map uc_url (entries r))
  /\ (forall e, In e (map uc_url (entries r)) <-> In e calls)
  /\ (forall e, In e (entries r) ->
                uc_count e = count_occ url_eq_dec calls (uc_url e)).
Proof.
  intros Hup run calls r.
  pose proof (post_all_recorded schema rt reqs []) as Hrec.
  simpl in Hrec; fold run in Hrec; fold calls in Hrec.
  destruct (endpoint_counts_up w (fst run) Hup) as [Hr He].
  fold r in Hr, He.
  pose proof (emitted_groups (engine w) (fst run)) as G.
  repeat split.
  - rewrite Hr.
    destruct (fst run); simpl in Hrec; rewrite <- Hrec; reflexivity.
  - rewrite He, project_urls; apply (groups_nodup _ _ G).
  - rewrite He, project_urls, (groups_ids _ _ G), Hrec; tauto.
  - rewrite He, project_urls, (groups_ids _ _ G), Hrec; tauto.
  - intros e Hin; rewrite He in Hin; apply project_in in Hin.
    pose proof (groups_count _ _ G _ Hin) as Hc; simpl in Hc.
    rewrite Hc; unfold calls_to; rewrite Hrec; reflexivity.
Qed.

Lemma endpoint_counts_after_records_witness :
  let r := get_stats_endpoint_counts Sample.later
             (fst (post_all TypeString EnUS.runtime Sample.scenario [])) in
  reachable Sample.later = true
  /\ status r = 200
  /\ forall e, In e (entries r) ->
       uc_count e
       = count_occ url_eq_dec
           [Some "checkout"%string; Some "checkout"%string;
            Some "inventory"%string] (uc_url e).
Proof.
  intros r.
  pose proof (endpoint_counts_after_records TypeString EnUS.runtime
                Sample.scenario Sample.later eq_refl) as H.
  split; [reflexivity|].
  split; [exact (proj1 H) | exact (proj2 (proj2 (proj2 H)))].
Defined.

(** ** Orders used by the two sorts *)

Lemma count_leb_total (g h : Group) :
  count_leb g h = true \/ count_leb h g = true.
Proof.
  unfold count_leb.
  destruct (Nat.leb_spec (count g) (count h)); [left; reflexivity|].
  right; apply Nat.leb_le; lia.
Qed.

Lemma count_leb_trans (g h k : Group) :
  count_leb g h = true -> count_leb h k = true -> count_leb g k = true.
Proof. unfold count_leb; rewrite !Nat.leb_le; lia. Qed.

Lemma by_timestamp_total (a b : Statistic) :
  by_timestamp a b = true \/ by_timestamp b a = true.
Proof. apply timestamp_leb_total. Qed.

Lemma by_timestamp_trans (a b c : Statistic) :
  by_timestamp a b = true -> by_timestamp b c = true -> by_timestamp a c = true.
Proof. apply timestamp_leb_trans. Qed.

Lemma emit_nil (e : Engine) : emit e [] = [].
Proof. apply Permutation_nil; symmetry; apply emit_perm. Qed.

Lemma scan_nil (e : Engine) : scan e [] = [].
Proof. apply Permutation_nil; symmetry; apply scan_perm. Qed.

(** What [GET /stats/most-called] answers on a collection that is not
    empty: the first group of the sort. *)
Lemma most_called_up (w : World) (coll : list Statistic) :
  reachable w = true -> coll <> [] ->
  exists g rest,
    sort_desc count_leb (emit (engine w) (group_by_url coll)) = g :: rest
    /\ get_stats_most_called w coll
       = mkResponse 200 (JUrlCount (mkUrlCount (_id g) (count g))).
Proof.
  intros Hup Hne.
  unfold get_stats_most_called, mostCalledStat, aggregate; rewrite Hup.
  destruct (sort_desc count_leb (emit (engine w) (group_by_url coll)))
    as [|g rest] eqn:E.
  - exfalso; apply Hne.
    apply (sort_desc_nil _ count_leb) in E.
    apply (groups_nonempty coll _ (emitted_groups (engine w) coll)), E.
  - exists g, rest; split; reflexivity.
Qed.

(** What [GET /stats/latest] answers on a collection that is not empty:
    the first document of the sort. *)
Lemma latest_up (w : World) (coll : list Statistic) :
  reachable w = true -> coll <> [] ->
  exists d rest,
    sort_desc by_timestamp (scan (engine w) coll) = d :: rest
    /\ get_stats_latest w coll = mkResponse 200 (JStatistic d).
Proof.
  intros Hup Hne.
  unfold get_stats_latest, latestStat; rewrite Hup.
  destruct (sort_desc by_timestamp (scan (engine w) coll)) as [|d rest] eqn:E.
  - exfalso; apply Hne.
    apply (sort_desc_nil _ by_timestamp) in E.
    apply Permutation_nil; rewrite <- E; apply scan_perm.
  - exists d, rest; split; reflexivity.
Qed.

(** The document that [GET /stats/latest] answers is stored and tops the
    collection. *)
Lemma latest_top (w : World) (coll : list Statistic) :
  coll <> [] -> reachable w = true ->
  exists d,
    get_stats_latest w coll = mkResponse 200 (JStatistic d)
    /\ In d coll
    /\ forall d', In d' coll ->
         timestamp_leb (timestamp d') (timestamp d) = true.
Proof.
  intros Hne Hup.
  destruct (latest_up w coll Hup Hne) as (d & rest & E & Hr).
  exists d; split; [exact Hr|]; split.
  - apply Permutation_in with (scan (engine w) coll); [apply scan_perm|].
    apply (sort_desc_head_in _ by_timestamp _ _ _ E).
  - intros d' Hd'.
    apply (sort_desc_head _ by_timestamp by_timestamp_total by_timestamp_trans
             _ _ _ E).
    apply Permutation_in with coll; [symmetry; apply scan_perm | exact Hd'].
Qed.

(** C2, where the code departs from it.  Under the schema whose
    [timestamp] is a [String], of a call recorded on 30 September at 11 at
    night and a call recorded two hours later, on 1 October at 1 in the
    morning, both answered [201], [GET /stats/latest] answers the call of
    September, in whichever order the store scans: the record it answers
    is not the one recorded last.  Its text is the greatest as the store
    compares texts, and that is all the query looks at. *)
Theorem latest_misses_last_recorded :
  let run := post_all TypeString EnUS.runtime Autumn.turn [] in
  let first := mkStatistic (Some "checkout"%string)
                 (TText "9/30/2023, 11:00:00 PM") in
  let last := mkStatistic (Some "inventory"%string)
                (TText "10/1/2023, 1:00:00 AM") in
  (Autumn.september < Autumn.october)%Z
  /\ snd run = [mkResponse 201 (JStatistic first);
                mkResponse 201 (JStatistic last)]
  /\ fst run = [first; last]
  /\ get_stats_latest Sample.later (fst run)
     = mkResponse 200 (JStatistic first)
  /\ get_stats_latest Sample.later_reversed (fst run)
     = mkResponse 200 (JStatistic first)
  /\ get_stats_latest Sample.later (fst run)
     <> mkResponse 200 (JStatistic last)
  /\ timestamp_leb (timestamp last) (timestamp first) = true.
Proof.
  vm_compute; repeat split; discriminate.
Qed.

(** The three queries on an empty collection. *)
Lemma handlers_on_empty (w : World) :
  reachable w = true ->
  get_stats_latest w [] = mkResponse 200 JNull
  /\ get_stats_most_called w [] = no_statistics
  /\ get_stats_endpoint_counts w [] = no_statistics
  /\ status (get_stats_latest w []) <> 500
  /\ status (get_stats_most_called w []) <> 500
  /\ status (get_stats_endpoint_counts w []) <> 500.
Proof.
  intros Hup.
  assert (L : get_stats_latest w [] = mkResponse 200 JNull).
  { unfold get_stats_latest, latestStat; rewrite Hup, scan_nil; reflexivity. }
  assert (M : get_stats_most_called w [] = no_statistics).
  { unfold get_stats_most_called, mostCalledStat, aggregate.
    rewrite Hup; simpl; rewrite emit_nil; reflexivity. }
  assert (E : get_stats_endpoint_counts w [] = no_statistics).
  { unfold get_stats_endpoint_counts, endpointCounts, aggregate.
    rewrite Hup; simpl; rewrite emit_nil; reflexivity. }
  rewrite L, M, E; simpl; repeat split; discriminate.
Qed.

(** C3, as the code has it.  On an empty collection, with the store
    answering, [GET /stats/latest] answers [200] with [null], and
    [GET /stats/most-called] and [GET /stats/endpoint-counts] both answer
    [404], "No statistics available"; none answers [500]. *)
Theorem empty_collection_answers (w : World) :
  reachable w = true ->
  get_stats_latest w [] = mkResponse 200 JNull
  /\ get_stats_most_called w [] = no_statistics
  /\ get_stats_endpoint_counts w [] = no_statistics
  /\ status (get_stats_latest w []) <> 500
  /\ status (get_stats_most_called w []) <> 500
  /\ status (get_stats_endpoint_counts w []) <> 500.
Proof. exact (handlers_on_empty w). Qed.

Lemma empty_collection_answers_witness :
  reachable Sample.later = true
  /\ get_stats_latest Sample.later [] = mkResponse 200 JNull
  /\ get_stats_most_called Sample.later [] = no_statistics
  /\ get_stats_endpoint_counts Sample.later [] = no_statistics.
Proof.
  pose proof (empty_collection_answers Sample.later eq_refl) as H.
  split; [reflexivity|].
  split; [exact (proj1 H)|].
  split; [exact (proj1 (proj2 H)) | exact (proj1 (proj2 (proj2 H)))].
Defined.

(** C3, as stated, fails: on an empty collection
    [GET /stats/endpoint-counts] does not send an empty sequence, it
    signals not-found. *)
Lemma endpoint_counts_empty_is_not_found :
  get_stats_endpoint_counts Sample.later [] <> mkResponse 200 (JUrlCounts [])
  /\ status (get_stats_endpoint_counts Sample.later []) = 404
  /\ body (get_stats_endpoint_counts Sample.later [])
     = JError "No statistics available".
Proof. repeat split; discriminate. Qed.

(** C4. On a collection that is not empty, [GET /stats/most-called]
    answers [200] with an endpoint and a count such that: the pair is one
    of the entries of [GET /stats/endpoint-counts], no entry there has a
    larger count, the count is the number of documents of that endpoint,
    and it is at least 1. *)
Theorem most_called_is_maximal (w w' : World) (coll : list Statistic) :
  coll <> [] -> reachable w = true -> reachable w' = true ->
  exists top,
    get_stats_most_called w coll = mkResponse 200 (JUrlCount top)
    /\ In top (entries (get_stats_endpoint_counts w' coll))
    /\ (forall e, In e (entries (get_stats_endpoint_counts w' coll)) ->
                  uc_count e <= uc_count top)
    /\ uc_count top = calls_to (uc_url top) coll
    /\ 1 <= uc_count top.
Proof.
  intros Hne Hup Hup'.
  destruct (most_called_up w coll Hup Hne) as (g & rest & E & Hr).
  destruct (endpoint_counts_up w' coll Hup') as [_ He]; simpl in He.
  pose proof (emitted_groups (engine w) coll) as G.
  assert (Hg : In g (emit (engine w) (group_by_url coll))).
  { apply (sort_desc_head_in _ count_leb _ _ _ E). }
  assert (P : Permutation (emit (engine w') (group_by_url coll))
                          (emit (engine w) (group_by_url coll))).
  { rewrite !emit_perm; reflexivity. }
  exists (mkUrlCount (_id g) (count g)); split; [exact Hr|].
  rewrite He; repeat split; simpl.
  - apply project_in; simpl.
    apply Permutation_in with (emit (engine w) (group_by_url coll));
      [symmetry; exact P | destruct g; exact Hg].
  - intros e Hin; apply project_in in Hin.
    apply Permutation_in with (l' := emit (engine w) (group_by_url coll)) in Hin;
      [|exact P].
    apply Nat.leb_le.
    apply (sort_desc_head _ count_leb count_leb_total count_leb_trans
             _ _ _ E _ Hin).
  - apply (groups_count _ _ G _ Hg).
  - apply (groups_positive _ _ _ G Hg).
Qed.

Lemma most_called_is_maximal_witness :
  Sample.dated <> []
  /\ reachable Sample.later = true /\ reachable Sample.later_reversed = true
  /\ exists top,
       get_stats_most_called Sample.later Sample.dated
       = mkResponse 200 (JUrlCount top)
       /\ In top (entries (get_stats_endpoint_counts Sample.later_reversed
                             Sample.dated))
       /\ (forall e,
             In e (entries (get_stats_endpoint_counts Sample.later_reversed
                              Sample.dated)) ->
             uc_count e <= uc_count top)
       /\ uc_count top = calls_to (uc_url top) Sample.dated
       /\ 1 <= uc_count top.
Proof.
  assert (Hne : Sample.dated <> []) by discriminate.
  split; [exact Hne|]; split; [reflexivity|]; split; [reflexivity|].
  exact (most_called_is_maximal Sample.later Sample.later_reversed
           Sample.dated Hne eq_refl eq_refl).
Defined.

(** C9. The counts of the entries of [GET /stats/endpoint-counts] add up
    to the number of documents of the collection. *)
Theorem endpoint_counts_total (w : World) (coll : list Statistic) :
  reachable w = true ->
  list_sum (map uc_count (entries (get_stats_endpoint_counts w coll)))
  = List.length coll.
Proof.
  intros Hup.
  destruct (endpoint_counts_up w coll Hup) as [_ He]; simpl in He.
  rewrite He, project_counts.
  apply (groups_total _ _ (emitted_groups (engine w) coll)).
Qed.

Lemma endpoint_counts_total_witness :
  reachable Sample.later_reversed = true
  /\ list_sum (map uc_count
       (entries (get_stats_endpoint_counts Sample.later_reversed Sample.tied)))
     = 4.
Proof.
  split; [reflexivity|].
  exact (endpoint_counts_total Sample.later_reversed Sample.tied eq_refl).
Defined.

(** ** Recording *)

Section Recording.

Variable schema : TimestampType.
Variable rt : Runtime.

(** [POST /stats] has two outcomes only. *)
Lemma post_stats_cases (w : World) (req : Body) (coll : list Statistic) :
  (exists ts,
      reachable w = true
      /\ cast_timestamp schema rt (toLocaleString rt (clock w)) = Some ts
      /\ post_stats schema rt w req coll
         = (coll ++ [mkStatistic (calledService req) ts],
            mkResponse 201
              (JStatistic (mkStatistic (calledService req) ts))))
  \/ post_stats schema rt w req coll = (coll, internal_server_error).
Proof.
  unfold post_stats, save.
  destruct (reachable w); [|right; reflexivity].
  destruct (cast_timestamp schema rt _) as [ts|]; [|right; reflexivity].
  left; exists ts; repeat split.
Qed.

End Recording.

(** C5, where the code departs from it.  Under the schema whose
    [timestamp] is a [String], what is stored is the text that
    [toLocaleString] renders, and the store sorts it as text: of a call
    recorded at nine and a call recorded at ten the same morning,
    [GET /stats/latest] answers the call of nine.  Under the schema whose
    [timestamp] is a [Date], the same two calls are stored as dates and the
    call of ten is the answer. *)
Theorem locale_text_timestamps_missort :
  let reqs := [(up Sample.nine, Sample.checkout);
               (up Sample.ten, Sample.inventory)] in
  let as_text := fst (post_all TypeString EnUS.runtime reqs []) in
  let as_date := fst (post_all TypeDate EnUS.runtime reqs []) in
  (Sample.nine < Sample.ten)%Z
  /\ as_text
     = [mkStatistic (Some "checkout"%string) (TText "11/14/2023, 9:00:00 AM");
        mkStatistic (Some "inventory"%string) (TText "11/14/2023, 10:00:00 AM")]
  /\ get_stats_latest Sample.later as_text
     = mkResponse 200
         (JStatistic (mkStatistic (Some "checkout"%string)
                        (TText "11/14/2023, 9:00:00 AM")))
  /\ get_stats_latest Sample.later_reversed as_text
     = get_stats_latest Sample.later as_text
  /\ as_date
     = [mkStatistic (Some "checkout"%string) (TDate Sample.nine);
        mkStatistic (Some "inventory"%string) (TDate Sample.ten)]
  /\ get_stats_latest Sample.later as_date
     = mkResponse 200
         (JStatistic (mkStatistic (Some "inventory"%string)
                        (TDate Sample.ten))).
Proof. repeat split. Qed.

(** C6. A [POST /stats] answered [201] leaves the collection as it was
    with one document added at its end; the response carries that very
    document, whose [url] is the [calledService] of the request and whose
    [timestamp] is the schema's reading of the clock's text; and the
    response is the same whatever the collection held. *)
Theorem post_stats_appends_one
  (schema : TimestampType) (rt : Runtime)
  (w : World) (req : Body) (coll : list Statistic) :
  status (snd (post_stats schema rt w req coll)) = 201 ->
  exists d,
    post_stats schema rt w req coll
    = (coll ++ [d], mkResponse 201 (JStatistic d))
    /\ url d = calledService req
    /\ cast_timestamp schema rt (toLocaleString rt (clock w))
       = Some (timestamp d)
    /\ forall other,
         snd (post_stats schema rt w req other)
         = mkResponse 201 (JStatistic d).
Proof.
  intros Hok.
  destruct (post_stats_cases schema rt w req coll)
    as [(ts & Hup & Hcast & E) | E]; rewrite E in Hok; simpl in Hok;
    [|discriminate].
  exists (mkStatistic (calledService req) ts); repeat split; auto.
  intros other; unfold post_stats, save; rewrite Hup, Hcast; reflexivity.
Qed.

Lemma post_stats_appends_one_witness :
  status (snd (post_stats TypeDate EnUS.runtime (up Sample.eleven)
                 Sample.inventory Sample.dated)) = 201
  /\ exists d,
       post_stats TypeDate EnUS.runtime (up Sample.eleven)
         Sample.inventory Sample.dated
       = (Sample.dated ++ [d], mkResponse 201 (JStatistic d))
       /\ url d = Some "inventory"%string.
Proof.
  split; [reflexivity|].
  destruct (post_stats_appends_one TypeDate EnUS.runtime (up Sample.eleven)
              Sample.inventory Sample.dated eq_refl) as (d & E & U & _).
  exists d; split; [exact E | exact U].
Defined.

(** C7. When the store does not answer, each of the three queries answers
    [500], "Internal Server Error", with no entry and no document, and
    [POST /stats] answers the same and leaves the collection as it was; so
    does any [POST /stats] that is not answered [201]. *)
Theorem storage_unavailable
  (schema : TimestampType) (rt : Runtime)
  (w : World) (coll : list Statistic) :
  reachable w = false ->
  get_stats_latest w coll = internal_server_error
  /\ get_stats_most_called w coll = internal_server_error
  /\ get_stats_endpoint_counts w coll = internal_server_error
  /\ entries (get_stats_endpoint_counts w coll) = []
  /\ (forall req,
        post_stats schema rt w req coll = (coll, internal_server_error))
  /\ (forall w' req,
        status (snd (post_stats schema rt w' req coll)) <> 201 ->
        post_stats schema rt w' req coll = (coll, internal_server_error)).
Proof.
  intros Hdown.
  unfold get_stats_latest, latestStat, get_stats_most_called, mostCalledStat,
    get_stats_endpoint_counts, endpointCounts, aggregate, post_stats, save.
  rewrite Hdown; repeat split.
  intros w' req Hnot.
  destruct (post_stats_cases schema rt w' req coll)
    as [(ts & Hup & Hcast & E) | E]; unfold post_stats, save in E;
    rewrite E in *; [|reflexivity].
  exfalso; apply Hnot; reflexivity.
Qed.

Lemma storage_unavailable_witness :
  reachable (down Sample.eleven) = false
  /\ get_stats_latest (down Sample.eleven) Sample.dated = internal_server_error
  /\ get_stats_most_called (down Sample.eleven) Sample.dated
     = internal_server_error
  /\ get_stats_endpoint_counts (down Sample.eleven) Sample.dated
     = internal_server_error.
Proof.
  pose proof (storage_unavailable TypeString EnUS.runtime (down Sample.eleven)
                Sample.dated eq_refl) as H.
  split; [reflexivity|].
  split; [exact (proj1 H)|].
  split; [exact (proj1 (proj2 H)) | exact (proj1 (proj2 (proj2 H)))].
Defined.

(** ** Reading twice *)

(** The group that [GET /stats/most-called] answers is one of the groups
    of the collection and no group is larger, whatever the engine's
    order. *)
Lemma most_called_top (w : World) (coll : list Statistic) :
  coll <> [] -> reachable w = true ->
  exists g,
    get_stats_most_called w coll
    = mkResponse 200 (JUrlCount (mkUrlCount (_id g) (count g)))
    /\ In g (group_by_url coll)
    /\ forall h, In h (group_by_url coll) -> count h <= count g.
Proof.
  intros Hne Hup.
  destruct (most_called_up w coll Hup Hne) as (g & rest & E & Hr).
  exists g; split; [exact Hr|]; split.
  - apply Permutation_in with (emit (engine w) (group_by_url coll));
      [apply emit_perm|].
    apply (sort_desc_head_in _ count_leb _ _ _ E).
  - intros h Hh; apply Nat.leb_le.
    apply (sort_desc_head _ count_leb count_leb_total count_leb_trans
             _ _ _ E).
    apply Permutation_in with (group_by_url coll);
      [symmetry; apply emit_perm | exact Hh].
Qed.




(** ** A request without [calledService] *)

Lemma calls_to_app (e : option string) (l l' : list Statistic) :
  calls_to e (l ++ l') = calls_to e l + calls_to e l'.
Proof. unfold calls_to; rewrite map_app; apply count_occ_app. Qed.

(** C10. A [POST /stats] whose body has no [calledService] is answered
    like one that has it; when the store answers and the schema accepts
    the clock's text, the answer is [201] with a document without [url],
    added to the collection.  Afterwards [GET /stats/endpoint-counts] has
    an entry for the null endpoint that counts every such document, and
    [GET /stats/most-called] answers a count at least that large, and the
    null endpoint itself when no named endpoint has as many calls. *)
Theorem missing_called_service
  (schema : TimestampType) (rt : Runtime)
  (w w' : World) (coll : list Statistic) (ts : Timestamp) :
  reachable w = true ->
  cast_timestamp schema rt (toLocaleString rt (clock w)) = Some ts ->
  reachable w' = true ->
  let d := mkStatistic None ts in
  let n := S (calls_to None coll) in
  (forall w0 s coll0,
      status (snd (post_stats schema rt w0 (mkBody (Some s)) coll0))
      = status (snd (post_stats schema rt w0 (mkBody None) coll0)))
  /\ post_stats schema rt w (mkBody None) coll
     = (coll ++ [d], mkResponse 201 (JStatistic d))
  /\ In (mkUrlCount None n)
        (entries (get_stats_endpoint_counts w' (coll ++ [d])))
  /\ exists top,
       get_stats_most_called w' (coll ++ [d]) = mkResponse 200 (JUrlCount top)
       /\ n <= uc_count top
       /\ ((forall e, e <> None -> calls_to e (coll ++ [d]) < n) ->
           top = mkUrlCount None n).
Proof.
  intros Hup Hcast Hup' d n.
  assert (Hn : calls_to None (coll ++ [d]) = n).
  { rewrite calls_to_app; unfold n, calls_to; simpl; lia. }
  assert (Hne : coll ++ [d] <> []) by (destruct coll; discriminate).
  pose proof (group_by_url_spec (coll ++ [d])) as G.
  assert (Hnull : In (mkGroup None n) (group_by_url (coll ++ [d]))).
  { assert (Hid : In None (map _id (group_by_url (coll ++ [d])))).
    { apply (groups_ids _ _ G); rewrite map_app; apply in_or_app; right.
      left; reflexivity. }
    apply in_map_iff in Hid; destruct Hid as ([k c] & Hk & Hg).
    simpl in Hk; subst k.
    pose proof (groups_count _ _ G _ Hg) as Hc; simpl in Hc.
    rewrite Hn in Hc; subst c; exact Hg. }
  split; [|split; [|split]].
  - intros w0 s coll0; unfold post_stats, save.
    destruct (reachable w0); [|reflexivity].
    destruct (cast_timestamp schema rt (toLocaleString rt (clock w0)));
      reflexivity.
  - unfold post_stats, save; rewrite Hup, Hcast; reflexivity.
  - destruct (endpoint_counts_up w' (coll ++ [d]) Hup') as [_ He].
    simpl in He; rewrite He; apply project_in; simpl.
    apply Permutation_in with (group_by_url (coll ++ [d]));
      [symmetry; apply emit_perm | exact Hnull].
  - destruct (most_called_top w' (coll ++ [d]) Hne Hup') as (g & M & J & C).
    exists (mkUrlCount (_id g) (count g)); split; [exact M|]; simpl.
    pose proof (C _ Hnull) as Hle; simpl in Hle.
    split; [exact Hle|].
    intros Hnamed.
    pose proof (groups_count _ _ G _ J) as Hc.
    destruct (url_eq_dec (_id g) None) as [E|E].
    + rewrite E in *; rewrite Hn in Hc; rewrite Hc; reflexivity.
    + specialize (Hnamed _ E); lia.
Qed.

Lemma missing_called_service_witness :
  reachable (up Sample.eleven) = true
  /\ cast_timestamp TypeDate EnUS.runtime
       (toLocaleString EnUS.runtime (clock (up Sample.eleven)))
     = Some (TDate Sample.eleven)
  /\ reachable Sample.later_reversed = true
  /\ post_stats TypeDate EnUS.runtime (up Sample.eleven) (mkBody None)
       Sample.dated
     = (Sample.dated ++ [mkStatistic None (TDate Sample.eleven)],
        mkResponse 201 (JStatistic (mkStatistic None (TDate Sample.eleven))))
  /\ In (mkUrlCount None 1)
        (entries (get_stats_endpoint_counts Sample.later_reversed
                    (Sample.dated ++ [mkStatistic None (TDate Sample.eleven)]))).
Proof.
  pose proof (missing_called_service TypeDate EnUS.runtime (up Sample.eleven)
                Sample.later_reversed Sample.dated (TDate Sample.eleven)
                eq_refl eq_refl eq_refl) as H.
  split; [reflexivity|]; split; [reflexivity|]; split; [reflexivity|].
  split; [exact (proj1 (proj2 H)) | exact (proj1 (proj2 (proj2 H)))].
Defined.

(** * Further properties of the handlers *)

(** ** Status of the answers *)

(** X1. What the three queries answer by status alone: [latest] answers
    [200] whenever the store answers, with [null] exactly on an empty
    collection; [most-called] and [endpoint-counts] always agree in status,
    [404] exactly when the store answers and the collection is empty; and
    [500] comes exactly when the store does not answer. *)
Theorem read_status_table (w : World) (coll : list Statistic) :
  status (get_stats_latest w coll) = (if reachable w then 200 else 500)
  /\ (body (get_stats_latest w coll) = JNull <-> reachable w = true /\ coll = [])
  /\ status (get_stats_most_called w coll)
     = (if reachable w then match coll with [] => 404 | _ => 200 end else 500)
  /\ status (get_stats_endpoint_counts w coll)
     = status (get_stats_most_called w coll).
Proof.
  destruct (reachable w) eqn:Hup.
  - destruct coll as [|d0 coll0] eqn:Ecoll.
    + destruct (handlers_on_empty w Hup) as (L & M & E & _).
      rewrite L, M, E; simpl; repeat split; auto.
    + rewrite <- Ecoll.
      assert (Hne : coll <> []) by (rewrite Ecoll; discriminate).
      destruct (latest_up w coll Hup Hne) as (d & rest & _ & L).
      destruct (most_called_up w coll Hup Hne) as (g & rest' & _ & M).
      destruct (endpoint_counts_up w coll Hup) as [E _].
      rewrite L, M, E, Ecoll; simpl; repeat split; try discriminate.
      intros [_ H]; discriminate.
  - unfold get_stats_latest, latestStat, get_stats_most_called, mostCalledStat,
      get_stats_endpoint_counts, endpointCounts, aggregate.
    rewrite Hup; simpl; repeat split; try discriminate.
    intros [H _]; discriminate.
Qed.

(** ** Entries and counts *)

Lemma tallied_absent (k : option string) (gs : list Group) :
  ~ In k (map _id gs) -> tallied k gs = 0.
Proof.
  induction gs as [|g gs IH]; simpl; intros H; [reflexivity|].
  destruct (url_eqb_spec k (_id g)) as [E|_]; [|apply IH; tauto].
  exfalso; apply H; left; symmetry; exact E.
Qed.

Lemma tallied_groups (docs : list Statistic) (gs : list Group)
      (k : option string) :
  groups_of docs gs -> tallied k gs = calls_to k docs.
Proof.
  intros G.
  destruct (in_dec url_eq_dec k (map _id gs)) as [Hin|Hout].
  - apply in_map_iff in Hin; destruct Hin as (g & <- & Hg).
    rewrite (tallied_of_member g gs (groups_nodup _ _ G) Hg).
    apply (groups_count _ _ G g Hg).
  - rewrite (tallied_absent _ _ Hout); symmetry.
    apply count_occ_not_In; rewrite <- (groups_ids _ _ G); exact Hout.
Qed.

Lemma count_for_project (k : option string) (gs : list Group) :
  count_for k (project gs) = tallied k gs.
Proof.
  induction gs as [|g gs IH]; simpl; [reflexivity|].
  destruct (url_eqb k (_id g)); [reflexivity | exact IH].
Qed.

(** The count that [GET /stats/endpoint-counts] holds for an endpoint is
    the number of its documents. *)
Lemma count_for_endpoint (w : World) (coll : list Statistic)
      (e : option string) :
  reachable w = true ->
  count_for e (entries (get_stats_endpoint_counts w coll)) = calls_to e coll.
Proof.
  intros Hup.
  destruct (endpoint_counts_up w coll Hup) as [_ He]; simpl in He.
  rewrite He, count_for_project.
  apply tallied_groups, emitted_groups.
Qed.

(** X2. Every entry of [GET /stats/endpoint-counts] counts at least one
    call and at most as many as the collection has documents. *)
Theorem entry_count_bounds (w : World) (coll : list Statistic) (e : UrlCount) :
  In e (entries (get_stats_endpoint_counts w coll)) ->
  1 <= uc_count e <= List.length coll.
Proof.
  intros Hin.
  destruct (reachable w) eqn:Hup.
  - destruct (endpoint_counts_up w coll Hup) as [_ He]; simpl in He.
    rewrite He in Hin; apply project_in in Hin.
    pose proof (emitted_groups (engine w) coll) as G.
    pose proof (groups_positive _ _ _ G Hin) as Hpos; simpl in Hpos.
    pose proof (groups_count _ _ G _ Hin) as Hc; simpl in Hc.
    split; [exact Hpos|].
    rewrite Hc; unfold calls_to.
    rewrite <- (length_map url coll); apply count_occ_bound.
  - unfold get_stats_endpoint_counts, endpointCounts, aggregate in Hin.
    rewrite Hup in Hin; destruct Hin.
Qed.

Lemma entry_count_bounds_witness :
  In (mkUrlCount (Some "checkout"%string) 2)
     (entries (get_stats_endpoint_counts Sample.later Sample.dated))
  /\ 1 <= 2 <= List.length Sample.dated.
Proof.
  assert (H : In (mkUrlCount (Some "checkout"%string) 2)
                 (entries (get_stats_endpoint_counts Sample.later Sample.dated)))
    by (left; reflexivity).
  split; [exact H|].
  exact (entry_count_bounds Sample.later Sample.dated _ H).
Defined.

(** ** Runs of [POST /stats] *)

Section Runs.

Variable schema : TimestampType.
Variable rt : Runtime.

(** X3. A run of [POST /stats] requests only ever adds at the end of the
    collection: every request gets one answer, each answer is [201] or the
    [500] error, and the documents added are, in order, exactly the
    documents that the [201] answers carry. *)
Theorem post_all_append_only
  (reqs : list (World * Body)) (coll : list Statistic) :
  let run := post_all schema rt reqs coll in
  List.length (snd run) = List.length reqs
  /\ Forall (fun r => status r = 201 \/ r = internal_server_error) (snd run)
  /\ exists added,
       fst run = coll ++ added
       /\ map JStatistic added = map body (filter created (snd run)).
Proof.
  revert coll; induction reqs as [|[w req] reqs IH]; intros coll; simpl.
  - repeat split; [constructor|].
    exists []; rewrite app_nil_r; split; reflexivity.
  - destruct (post_stats_cases schema rt w req coll)
      as [(ts & _ & _ & E) | E]; rewrite E.
    + specialize (IH (coll ++ [mkStatistic (calledService req) ts])).
      destruct (post_all schema rt reqs _) as [coll2 rs]; simpl in *.
      destruct IH as (Hlen & Hall & added & Hadd & Hbody).
      repeat split.
      * rewrite Hlen; reflexivity.
      * constructor; [left; reflexivity | exact Hall].
      * exists (mkStatistic (calledService req) ts :: added); split.
        -- rewrite Hadd, <- app_assoc; reflexivity.
        -- simpl; rewrite Hbody; reflexivity.
    + specialize (IH coll).
      destruct (post_all schema rt reqs coll) as [coll2 rs]; simpl in *.
      destruct IH as (Hlen & Hall & added & Hadd & Hbody).
      repeat split.
      * rewrite Hlen; reflexivity.
      * constructor; [right; reflexivity | exact Hall].
      * exists added; split; assumption.
Qed.

(** X4. Recording moves exactly one count by exactly one: after a
    [POST /stats], the count that [GET /stats/endpoint-counts] holds for an
    endpoint is the count it held before, plus one when the request was
    answered [201] and named that endpoint. *)
Theorem record_then_count
  (w w1 w2 : World) (req : Body) (coll : list Statistic) (e : option string) :
  reachable w1 = true -> reachable w2 = true ->
  let after := post_stats schema rt w req coll in
  count_for e (entries (get_stats_endpoint_counts w2 (fst after)))
  = count_for e (entries (get_stats_endpoint_counts w1 coll))
    + (if created (snd after) && url_eqb e (calledService req) then 1 else 0).
Proof.
  intros H1 H2 after.
  rewrite !count_for_endpoint by assumption.
  unfold after.
  destruct (post_stats_cases schema rt w req coll)
    as [(ts & _ & _ & E) | E]; rewrite E; simpl.
  - rewrite calls_to_app; unfold calls_to at 2; simpl.
    destruct (url_eq_dec (calledService req) e) as [<-|Hne].
    + rewrite url_eqb_refl; reflexivity.
    + destruct (url_eqb_spec e (calledService req)); [congruence | reflexivity].
  - lia.
Qed.

End Runs.

Lemma record_then_count_witness :
  reachable Sample.later = true /\ reachable Sample.later_reversed = true
  /\ count_for (Some "inventory"%string)
       (entries (get_stats_endpoint_counts Sample.later_reversed
          (fst (post_stats TypeString EnUS.runtime (up Sample.eleven)
                  Sample.inventory Sample.dated))))
     = 2.
Proof.
  split; [reflexivity|]; split; [reflexivity|].
  exact (record_then_count TypeString EnUS.runtime (up Sample.eleven)
           Sample.later Sample.later_reversed Sample.inventory Sample.dated
           (Some "inventory"%string) eq_refl eq_refl).
Defined.

(** ** Answers that do not depend on the engine *)

(** When one endpoint has more calls than any other, it is the group the
    sort puts first. *)
Lemma most_called_unique (w : World) (coll : list Statistic)
      (e : option string) :
  reachable w = true ->
  (forall e', e' <> e -> calls_to e' coll < calls_to e coll) ->
  get_stats_most_called w coll
  = mkResponse 200 (JUrlCount (mkUrlCount e (calls_to e coll))).
Proof.
  intros Hup Hmax.
  assert (Hpos : 0 < calls_to e coll).
  { destruct e as [s|].
    - specialize (Hmax None); assert (None <> Some s) by discriminate.
      specialize (Hmax H); lia.
    - specialize (Hmax (Some EmptyString)).
      assert (Some EmptyString <> None) by discriminate.
      specialize (Hmax H); lia. }
  assert (Hne : coll <> []) by (intros ->; unfold calls_to in Hpos; simpl in Hpos; lia).
  destruct (most_called_top w coll Hne Hup) as (g & M & J & C).
  pose proof (group_by_url_spec coll) as G.
  pose proof (groups_count _ _ G _ J) as Hg.
  assert (He : In e (map _id (group_by_url coll))).
  { apply (groups_ids _ _ G); apply (count_occ_In url_eq_dec); exact Hpos. }
  apply in_map_iff in He; destruct He as (h & Hid & Hh).
  pose proof (groups_count _ _ G _ Hh) as Hc; rewrite Hid in Hc.
  pose proof (C _ Hh) as Hle.
  destruct (url_eq_dec (_id g) e) as [E|E].
  - rewrite M, Hg, E; reflexivity.
  - specialize (Hmax _ E); lia.
Qed.

(** X5. Without a tie the engine has no say: when one endpoint has
    strictly more calls than every other, [GET /stats/most-called] answers
    that endpoint with its number of calls. *)
Theorem most_called_without_tie
  (w : World) (coll : list Statistic) (e : option string) :
  reachable w = true ->
  (forall e', e' <> e -> calls_to e' coll < calls_to e coll) ->
  get_stats_most_called w coll
  = mkResponse 200 (JUrlCount (mkUrlCount e (calls_to e coll))).
Proof. exact (most_called_unique w coll e). Qed.

Lemma sample_checkout_leads (e' : option string) :
  e' <> Some "checkout"%string ->
  calls_to e' Sample.dated < calls_to (Some "checkout"%string) Sample.dated.
Proof.
  intros Hne.
  change (calls_to (Some "checkout"%string) Sample.dated) with 2.
  unfold calls_to, Sample.dated; cbn [map url count_occ].
  destruct (url_eq_dec (Some "checkout"%string) e') as [E|_]; [congruence|].
  destruct (url_eq_dec (Some "inventory"%string) e'); lia.
Defined.

Lemma most_called_without_tie_witness :
  reachable Sample.later_reversed = true
  /\ (forall e', e' <> Some "checkout"%string ->
        calls_to e' Sample.dated
        < calls_to (Some "checkout"%string) Sample.dated)
  /\ get_stats_most_called Sample.later_reversed Sample.dated
     = mkResponse 200 (JUrlCount (mkUrlCount (Some "checkout"%string) 2)).
Proof.
  split; [reflexivity|]; split; [exact sample_checkout_leads|].
  exact (most_called_without_tie Sample.later_reversed Sample.dated
           (Some "checkout"%string) eq_refl sample_checkout_leads).
Defined.

(** When one document's [timestamp] is above that of every other, it is
    the document the sort puts first. *)
Lemma latest_unique (w : World) (coll : list Statistic) (d : Statistic) :
  reachable w = true -> In d coll ->
  (forall d', In d' coll -> d' <> d ->
              timestamp_leb (timestamp d) (timestamp d') = false) ->
  get_stats_latest w coll = mkResponse 200 (JStatistic d).
Proof.
  intros Hup Hin Hmax.
  assert (Hne : coll <> []) by (intros ->; destruct Hin).
  destruct (latest_top w coll Hne Hup) as (top & L & I & T).
  destruct (statistic_eq_dec top d) as [->|E]; [exact L|].
  pose proof (Hmax top I E) as H; rewrite (T d Hin) in H; discriminate.
Qed.

(** X6. Without a tie the engine has no say in [GET /stats/latest]
    either: a document whose [timestamp] the store orders strictly above
    that of every other document is the one answered. *)
Theorem latest_without_tie
  (w : World) (coll : list Statistic) (d : Statistic) :
  reachable w = true -> In d coll ->
  (forall d', In d' coll -> d' <> d ->
              timestamp_leb (timestamp d) (timestamp d') = false) ->
  get_stats_latest w coll = mkResponse 200 (JStatistic d).
Proof. exact (latest_unique w coll d). Qed.

Lemma sample_eleven_leads (d' : Statistic) :
  In d' Sample.dated ->
  d' <> mkStatistic (Some "inventory"%string) (TDate Sample.eleven) ->
  timestamp_leb (TDate Sample.eleven) (timestamp d') = false.
Proof.
  intros [<-|[<-|[<-|[]]]] Hne; try reflexivity.
  exfalso; apply Hne; reflexivity.
Defined.

Lemma latest_without_tie_witness :
  reachable Sample.later_reversed = true
  /\ In (mkStatistic (Some "inventory"%string) (TDate Sample.eleven))
        Sample.dated
  /\ get_stats_latest Sample.later_reversed Sample.dated
     = mkResponse 200
         (JStatistic (mkStatistic (Some "inventory"%string)
                        (TDate Sample.eleven))).
Proof.
  assert (Hin : In (mkStatistic (Some "inventory"%string) (TDate Sample.eleven))
                   Sample.dated) by (right; left; reflexivity).
  split; [reflexivity|]; split; [exact Hin|].
  exact (latest_without_tie Sample.later_reversed Sample.dated _ eq_refl Hin
           sample_eleven_leads).
Defined.

(** X7. Recording and then asking for the latest: when a [POST /stats]
    is answered [201] and the store orders the [timestamp] it stored
    strictly above every [timestamp] already there, the next
    [GET /stats/latest] answers the very document that the [POST]
    returned. *)
Theorem record_then_latest
  (schema : TimestampType) (rt : Runtime)
  (w w' : World) (req : Body) (coll : list Statistic) :
  let after := post_stats schema rt w req coll in
  status (snd after) = 201 ->
  reachable w' = true ->
  (forall ts d,
      cast_timestamp schema rt (toLocaleString rt (clock w)) = Some ts ->
      In d coll -> timestamp_leb ts (timestamp d) = false) ->
  status (get_stats_latest w' (fst after)) = 200
  /\ body (get_stats_latest w' (fst after)) = body (snd after).
Proof.
  intros after Hok Hup' Hnew; unfold after in *.
  destruct (post_stats_cases schema rt w req coll)
    as [(ts & _ & Hcast & E) | E]; rewrite E in *; simpl in Hok;
    [|discriminate].
  simpl.
  rewrite (latest_unique w' _ (mkStatistic (calledService req) ts) Hup').
  - split; reflexivity.
  - apply in_or_app; right; left; reflexivity.
  - intros d' Hd' Hne; simpl.
    apply in_app_or in Hd'; destruct Hd' as [Hd'|[<-|[]]].
    + apply (Hnew ts d' Hcast Hd').
    + exfalso; apply Hne; reflexivity.
Qed.

Lemma sample_noon_is_new (ts : Timestamp) (d : Statistic) :
  cast_timestamp TypeDate EnUS.runtime
    (toLocaleString EnUS.runtime (clock (up 1699963200000%Z))) = Some ts ->
  In d Sample.dated -> timestamp_leb ts (timestamp d) = false.
Proof.
  intros Hcast.
  assert (E : cast_timestamp TypeDate EnUS.runtime
                (toLocaleString EnUS.runtime (clock (up 1699963200000%Z)))
              = Some (TDate 1699963200000%Z)) by (vm_compute; reflexivity).
  rewrite E in Hcast; injection Hcast as <-.
  intros [<-|[<-|[<-|[]]]]; reflexivity.
Defined.

Lemma record_then_latest_witness :
  let after := post_stats TypeDate EnUS.runtime (up 1699963200000%Z)
                 Sample.checkout Sample.dated in
  status (snd after) = 201
  /\ reachable Sample.later_reversed = true
  /\ body (get_stats_latest Sample.later_reversed (fst after))
     = body (snd after).
Proof.
  intros after.
  split; [reflexivity|]; split; [reflexivity|].
  exact (proj2 (record_then_latest TypeDate EnUS.runtime (up 1699963200000%Z)
                  Sample.later_reversed Sample.checkout Sample.dated
                  eq_refl eq_refl sample_noon_is_new)).
Defined.

(** ** Reading back what [toLocaleString] rendered *)

Lemma read_digits_uint (d : Decimal.uint) (s : string) (acc : Z) :
  read_digits (NilEmpty.string_of_uint d ++ s) (Some acc)
  = read_digits s (Some (uint_value d acc)).
Proof.
  revert acc; induction d; intros acc; simpl; try reflexivity; apply IHd.
Qed.

Lemma uint_value_acc (d : Decimal.uint) (p : positive) :
  uint_value d (Z.pos p) = Z.pos (Pos.of_uint_acc d p).
Proof.
  revert p; induction d; intros p; cbn [uint_value Pos.of_uint_acc];
    try reflexivity; rewrite <- IHd; f_equal; lia.
Qed.

Lemma uint_value_of_uint (d : Decimal.uint) :
  uint_value d 0 = Z.of_N (Pos.of_uint d).
Proof.
  induction d; simpl; try reflexivity; try exact IHd;
    apply uint_value_acc.
Qed.

Lemma uint_value_to_uint (n : N) : uint_value (N.to_uint n) 0 = Z.of_N n.
Proof.
  rewrite uint_value_of_uint.
  change (Pos.of_uint (N.to_uint n)) with (N.of_uint (N.to_uint n)).
  rewrite DecimalN.Unsigned.of_to; reflexivity.
Qed.

Lemma to_uint_nonnil (n : N) : N.to_uint n <> Decimal.Nil.
Proof.
  destruct n; simpl; [discriminate | apply DecimalPos.Unsigned.to_uint_nonnil].
Qed.

Lemma digits_text (n : Z) :
  digits n = NilEmpty.string_of_uint (N.to_uint (Z.to_N n)).
Proof.
  unfold digits, NilZero.string_of_uint.
  pose proof (to_uint_nonnil (Z.to_N n)) as H.
  destruct (N.to_uint (Z.to_N n)); [congruence | reflexivity ..].
Qed.

(** A number rendered by [digits] and followed by a character that is
    not a digit reads back as that number. *)
Lemma number_digits (n : Z) (c : ascii) (p s : string) :
  (0 <= n)%Z -> is_digit c = false ->
  number (digits n ++ (String c p ++ s)) = Some (n, (String c p ++ s)%string).
Proof.
  intros Hn Hc; unfold number; rewrite digits_text.
  pose proof (to_uint_nonnil (Z.to_N n)) as Hnil.
  pose proof (uint_value_to_uint (Z.to_N n)) as Hval.
  rewrite Z2N.id in Hval by exact Hn.
  destruct (N.to_uint (Z.to_N n)) as [|d|d|d|d|d|d|d|d|d|d]; [congruence|..];
    simpl in Hval |- *;
    rewrite read_digits_uint, <- Hval; simpl; rewrite Hc; reflexivity.
Qed.

Lemma number_digits2 (n : Z) (c : ascii) (p s : string) :
  (0 <= n)%Z -> is_digit c = false ->
  number (digits2 n ++ (String c p ++ s)) = Some (n, (String c p ++ s)%string).
Proof.
  intros Hn Hc; unfold digits2.
  destruct (n <? 10)%Z; [|apply number_digits; assumption].
  unfold number; rewrite digits_text; simpl.
  rewrite read_digits_uint.
  change (digit_value "0") with 0%Z.
  rewrite uint_value_to_uint, Z2N.id by exact Hn.
  simpl; rewrite Hc; reflexivity.
Qed.

Lemma lit_prefix (p s : string) : lit p (p ++ s) = Some s.
Proof.
  induction p as [|a p IH]; simpl; [destruct s; reflexivity|].
  rewrite Ascii.eqb_refl; exact IH.
Qed.

(** ** Calendar fields and back *)

Lemma year_of_era (doe : Z) :
  (0 <= doe <= 146096)%Z ->
  let yoe := ((doe - doe / 1460 + doe / 36524 - doe / 146096) / 365)%Z in
  let doy := (doe - (365 * yoe + yoe / 4 - yoe / 100))%Z in
  (0 <= yoe <= 399 /\ 0 <= doy <= 365)%Z.
Proof.
  intros H yoe doy; unfold doy, yoe; clear doy yoe.
  Z.div_mod_to_equations; lia.
Qed.

Lemma civil_from_days_back (days : Z) :
  let '(y, m, d) := JsDate.civil_from_days days in
  (1 <= m <= 12 /\ 1 <= d <= 31
   /\ JsDate.days_from_civil y m d = days
   /\ (0 <= days -> 1969 <= y))%Z.
Proof.
  unfold JsDate.civil_from_days, JsDate.days_from_civil.
  set (z := (days + 719468)%Z).
  set (era := (z / 146097)%Z).
  set (doe := (z - era * 146097)%Z).
  assert (Hdoe : (0 <= doe <= 146096)%Z)
    by (unfold doe, era; Z.div_mod_to_equations; lia).
  pose proof (year_of_era doe Hdoe) as Hy; cbv zeta in Hy.
  set (yoe := ((doe - doe / 1460 + doe / 36524 - doe / 146096) / 365)%Z) in *.
  set (doy := (doe - (365 * yoe + yoe / 4 - yoe / 100))%Z) in *.
  destruct Hy as [Hyoe Hdoy].
  set (mp := ((5 * doy + 2) / 153)%Z).
  assert (Hmp : (0 <= mp <= 11)%Z) by (unfold mp; clearbody doy; Z.div_mod_to_equations; lia).
  assert (Hz : (z = era * 146097 + doe)%Z) by (unfold doe; lia).
  assert (Hera : (0 <= days -> 4 <= era)%Z)
    by (unfold era, z; Z.div_mod_to_equations; lia).
  assert (Hlate : (0 <= days -> era = 4 -> 369 <= yoe)%Z).
  { intros Hd He.
    assert (Hlow : (135080 <= doe)%Z) by (unfold z in Hz; lia).
    clearbody doe; clear - Hdoe Hlow; unfold yoe.
    Z.div_mod_to_equations; lia. }
  assert (Hday : (1 <= doy - (153 * mp + 2) / 5 + 1 <= 31)%Z).
  { unfold mp; clearbody doy; clear - Hdoy. Z.div_mod_to_equations; lia. }
  assert (Hdoe' : (doe = yoe * 365 + yoe / 4 - yoe / 100 + doy)%Z)
    by (unfold doy; lia).
  clearbody mp doy yoe doe era.
  destruct (mp <? 10)%Z eqn:E10;
    [apply Z.ltb_lt in E10 | apply Z.ltb_ge in E10].
  - assert (E2 : (mp + 3 <=? 2)%Z = false) by (apply Z.leb_gt; lia).
    assert (E3 : (2 <? mp + 3)%Z = true) by (apply Z.ltb_lt; lia).
    rewrite E2, E3.
    replace ((yoe + era * 400 + 0 - 0) / 400)%Z with era
      by (Z.div_mod_to_equations; lia).
    replace (mp + 3 - 3)%Z with mp by lia.
    replace (yoe + era * 400 + 0 - 0 - era * 400)%Z with yoe by lia.
    repeat split; try lia.
  - assert (E2 : (mp - 9 <=? 2)%Z = true) by (apply Z.leb_le; lia).
    assert (E3 : (2 <? mp - 9)%Z = false) by (apply Z.ltb_ge; lia).
    rewrite E2, E3.
    replace ((yoe + era * 400 + 1 - 1) / 400)%Z with era
      by (Z.div_mod_to_equations; lia).
    replace (mp - 9 + 9)%Z with mp by lia.
    replace (yoe + era * 400 + 1 - 1 - era * 400)%Z with yoe by lia.
    repeat split; try lia.
Qed.

Lemma civil_back (ms : JsDate.t) :
  (0 <= ms)%Z ->
  let c := JsDate.civil ms in
  (1 <= JsDate.month c <= 12 /\ 1 <= JsDate.day c <= 31
   /\ 1969 <= JsDate.year c
   /\ 0 <= JsDate.hour c < 24
   /\ 0 <= JsDate.minute c < 60 /\ 0 <= JsDate.second c < 60
   /\ JsDate.of_civil c = whole_second ms)%Z.
Proof.
  intros Hms; unfold JsDate.civil, JsDate.of_civil, whole_second.
  pose proof (civil_from_days_back (ms / 1000 / 86400)) as H.
  destruct (JsDate.civil_from_days (ms / 1000 / 86400)) as [[y m] d].
  destruct H as (Hm & Hd & Hback & Hy).
  cbn [JsDate.year JsDate.month JsDate.day JsDate.hour JsDate.minute
       JsDate.second].
  rewrite Hback.
  assert (Hdays : (0 <= ms / 1000 / 86400)%Z)
    by (Z.div_mod_to_equations; lia).
  specialize (Hy Hdays).
  clear Hback Hdays.
  set (secs := (ms / 1000)%Z).
  assert (Hsod : (0 <= secs mod 86400 < 86400)%Z)
    by (apply Z.mod_pos_bound; lia).
  assert (Hsecs : (secs / 86400 * 86400 = secs - secs mod 86400)%Z)
    by (Z.div_mod_to_equations; lia).
  rewrite Hsecs; clear Hsecs.
  set (sod := (secs mod 86400)%Z) in *; clearbody sod; clearbody secs.
  repeat split; try lia; Z.div_mod_to_equations; lia.
Qed.

(** What [read] makes of a text put together the way [render] does. *)
Lemma read_fields (mo d y h mi se : Z) (morning : bool) :
  (0 <= mo -> 0 <= d -> 0 <= y -> 0 <= h -> 0 <= mi -> 0 <= se ->
   EnUS.read (digits mo ++ "/" ++ digits d ++ "/" ++ digits y ++ ", "
                ++ digits h ++ ":" ++ digits2 mi ++ ":" ++ digits2 se ++ " "
                ++ (if morning then "AM" else "PM"))
   = if ((1 <=? mo) && (mo <=? 12) && (1 <=? d) && (d <=? 31)
         && (h <=? 12) && (mi <? 60) && (se <? 60))
     then Some (JsDate.of_civil
                  (JsDate.mkCivil (EnUS.century y) mo d
                     (h mod 12 + (if morning then 0 else 12)) mi se))
     else None)%Z%string.
Proof.
  intros Hmo Hd Hy Hh Hmi Hse; unfold EnUS.read.
  rewrite number_digits by (assumption || reflexivity); cbv beta iota.
  rewrite lit_prefix.
  rewrite number_digits by (assumption || reflexivity); cbv beta iota.
  rewrite lit_prefix.
  rewrite number_digits by (assumption || reflexivity); cbv beta iota.
  rewrite lit_prefix.
  rewrite number_digits by (assumption || reflexivity); cbv beta iota.
  rewrite lit_prefix.
  rewrite number_digits2 by (assumption || reflexivity); cbv beta iota.
  rewrite lit_prefix.
  rewrite number_digits2 by (assumption || reflexivity); cbv beta iota.
  rewrite lit_prefix.
  destruct morning; reflexivity.
Qed.

(** Under the [en-US] rendering, the [Date] cast reads back the instant
    that was rendered, cut to the whole second. *)
Lemma en_US_read_render (ms : JsDate.t) :
  (0 <= ms)%Z -> EnUS.read (EnUS.render ms) = Some (whole_second ms).
Proof.
  intros Hms.
  destruct (civil_back ms Hms) as (Hmo & Hd & Hy & Hh & Hmi & Hse & Hback).
  unfold EnUS.render; cbv zeta.
  destruct (JsDate.civil ms) as [y mo d h mi se].
  cbn [JsDate.year JsDate.month JsDate.day JsDate.hour JsDate.minute
       JsDate.second] in *.
  set (h12 := if (h mod 12 =? 0)%Z then 12%Z else (h mod 12)%Z).
  assert (H12 : (1 <= h12 <= 12)%Z).
  { unfold h12; destruct (Z.eqb_spec (h mod 12) 0);
      [lia | Z.div_mod_to_equations; lia]. }
  assert (Hh' : (h12 mod 12 + (if (h <? 12)%Z then 0 else 12) = h)%Z).
  { unfold h12; destruct (Z.eqb_spec (h mod 12) 0), (Z.ltb_spec h 12);
      Z.div_mod_to_equations; lia. }
  assert (Hcent : EnUS.century y = y).
  { unfold EnUS.century.
    destruct (Z.ltb_spec y 50); [lia|]; destruct (Z.ltb_spec y 100); lia. }
  rewrite read_fields by lia.
  rewrite Hh', Hcent, Hback.
  replace ((1 <=? mo) && (mo <=? 12) && (1 <=? d) && (d <=? 31)
           && (h12 <=? 12) && (mi <? 60) && (se <? 60))%Z
    with true; [reflexivity|].
  symmetry; rewrite !andb_true_iff, !Z.leb_le, !Z.ltb_lt; lia.
Qed.

(** ** The [Date] schema under the [en-US] rendering *)

(** On a body whose [calledService] is a text or is not there. *)
Lemma date_post_text (w : World) (req : Body) (coll : list Statistic) :
  reachable w = true -> (0 <= clock w)%Z ->
  let d := mkStatistic (calledService req) (TDate (whole_second (clock w))) in
  post_stats TypeDate EnUS.runtime w req coll
  = (coll ++ [d], mkResponse 201 (JStatistic d)).
Proof.
  intros Hup Hclock d.
  unfold post_stats, save, cast_timestamp; rewrite Hup.
  cbn [toLocaleString castDate EnUS.runtime].
  rewrite (en_US_read_render (clock w) Hclock); reflexivity.
Qed.



Section DateRuns.

Variable castUrl : Value -> option (option string).

Lemma post_stats_request_keeps (schema : TimestampType) (rt : Runtime)
      (w : World) (v : Value) (coll : list Statistic) (d : Statistic) :
  In d coll -> In d (fst (post_stats_request schema rt castUrl w v coll)).
Proof.
  intros Hd; unfold post_stats_request.
  destruct (castUrl v) as [u|]; [|exact Hd].
  destruct (post_stats_cases schema rt w (mkBody u) coll)
    as [(ts & _ & _ & E) | E]; rewrite E; simpl; [|exact Hd].
  apply in_or_app; left; exact Hd.
Qed.

Lemma post_all_requests_keeps (schema : TimestampType) (rt : Runtime)
      (reqs : list (World * Value)) (coll : list Statistic) (d : Statistic) :
  In d coll -> In d (fst (post_all_requests schema rt castUrl reqs coll)).
Proof.
  revert coll; induction reqs as [|[w v] reqs IH]; intros coll Hd; simpl;
    [exact Hd|].
  pose proof (post_stats_request_keeps schema rt w v coll d Hd) as K.
  destruct (post_stats_request schema rt castUrl w v coll) as [coll1 r].
  specialize (IH coll1 K).
  destruct (post_all_requests schema rt castUrl reqs coll1) as [coll2 rs].
  exact IH.
Qed.

(** A request of a run that found the store answering and whose
    [calledService] the cast accepted has its document in the
    collection. *)
Lemma date_run_contains
      (reqs : list (World * Value)) (coll : list Statistic)
      (w0 : World) (v0 : Value) (u0 : option string) :
  Forall (fun x => (0 <= clock (fst x))%Z) reqs ->
  In (w0, v0) reqs -> reachable w0 = true -> castUrl v0 = Some u0 ->
  In (mkStatistic u0 (TDate (whole_second (clock w0))))
     (fst (post_all_requests TypeDate EnUS.runtime castUrl reqs coll)).
Proof.
  revert coll; induction reqs as [|[w v] reqs IH];
    intros coll Hall Hin Hup Hcast; [destruct Hin|].
  inversion Hall as [|? ? Hclock Hrest]; subst; simpl in Hclock.
  simpl.
  destruct Hin as [E|Hin].
  - injection E as -> ->.
    assert (Epost : post_stats_request TypeDate EnUS.runtime castUrl w0 v0 coll
                    = (coll ++ [mkStatistic u0
                                  (TDate (whole_second (clock w0)))],
                       mkResponse 201
                         (JStatistic (mkStatistic u0
                            (TDate (whole_second (clock w0))))))).
    { unfold post_stats_request; rewrite Hcast.
      apply (date_post_text w0 (mkBody u0) coll Hup Hclock). }
    rewrite Epost.
    pose proof (post_all_requests_keeps TypeDate EnUS.runtime reqs
                  (coll ++ [mkStatistic u0 (TDate (whole_second (clock w0)))])
                  (mkStatistic u0 (TDate (whole_second (clock w0))))) as K.
    destruct (post_all_requests TypeDate EnUS.runtime castUrl reqs _)
      as [coll2 rs]; simpl in *.
    apply K, in_or_app; right; left; reflexivity.
  - destruct (post_stats_request TypeDate EnUS.runtime castUrl w v coll)
      as [coll1 r].
    specialize (IH coll1 Hrest Hin Hup Hcast).
    destruct (post_all_requests TypeDate EnUS.runtime castUrl reqs coll1)
      as [coll2 rs].
    exact IH.
Qed.

(** X9. Under the schema whose [timestamp] is a [Date] and the [en-US]
    rendering, [GET /stats/latest] is chronological to the second: after a
    run of [POST /stats] requests made at or after the epoch, with
    [calledService] of any kind, the document it answers is dated, and
    dated no earlier than the whole second of any request of the run that
    found the store answering and whose [calledService] the cast of [url]
    accepted, that is, of any request that was recorded. *)
Theorem date_schema_latest_is_recent
  (reqs : list (World * Value)) (coll : list Statistic)
  (w w0 : World) (v0 : Value) :
  Forall (fun x => (0 <= clock (fst x))%Z) reqs ->
  In (w0, v0) reqs -> reachable w0 = true -> castUrl v0 <> None ->
  reachable w = true ->
  exists d t,
    get_stats_latest w
      (fst (post_all_requests TypeDate EnUS.runtime castUrl reqs coll))
    = mkResponse 200 (JStatistic d)
    /\ timestamp d = TDate t
    /\ (whole_second (clock w0) <= t)%Z.
Proof.
  intros Hall Hin Hup0 Hcast Hup.
  destruct (castUrl v0) as [u0|] eqn:Eu; [clear Hcast | congruence].
  pose proof (date_run_contains reqs coll w0 v0 u0 Hall Hin Hup0 Eu) as Hd0.
  set (final := fst (post_all_requests TypeDate EnUS.runtime castUrl reqs coll))
    in *.
  assert (Hne : final <> []) by (intros E; rewrite E in Hd0; destruct Hd0).
  destruct (latest_top w final Hne Hup) as (d & L & _ & T).
  specialize (T _ Hd0); simpl in T.
  destruct (timestamp d) as [s|t] eqn:Et; [discriminate|].
  exists d, t; repeat split; [exact L | exact Et | apply Z.leb_le, T].
Qed.

End DateRuns.

Lemma sample_clocks_after_epoch :
  Forall (fun x : World * Value => (0 <= clock (fst x))%Z) Autumn.mixed.
Proof.
  repeat constructor; simpl;
    unfold Sample.nine, Sample.ten, Sample.eleven; lia.
Defined.

Lemma sample_text_is_accepted :
  Mongoose.castString (VText "checkout") <> None.
Proof. discriminate. Defined.

Lemma date_schema_latest_is_recent_witness :
  Forall (fun x : World * Value => (0 <= clock (fst x))%Z) Autumn.mixed
  /\ In (up Sample.nine, VText "checkout") Autumn.mixed
  /\ reachable (up Sample.nine) = true
  /\ Mongoose.castString (VText "checkout") <> None
  /\ reachable Sample.later_reversed = true
  /\ exists d t,
       get_stats_latest Sample.later_reversed
         (fst (post_all_requests TypeDate EnUS.runtime Mongoose.castString
                 Autumn.mixed []))
       = mkResponse 200 (JStatistic d)
       /\ timestamp d = TDate t
       /\ (whole_second (clock (up Sample.nine)) <= t)%Z.
Proof.
  assert (Hin : In (up Sample.nine, VText "checkout") Autumn.mixed)
    by (left; reflexivity).
  split; [exact sample_clocks_after_epoch|]; split; [exact Hin|].
  split; [reflexivity|]; split; [exact sample_text_is_accepted|].
  split; [reflexivity|].
  exact (date_schema_latest_is_recent Mongoose.castString Autumn.mixed []
           Sample.later_reversed (up Sample.nine) (VText "checkout")
           sample_clocks_after_epoch Hin eq_refl sample_text_is_accepted
           eq_refl).
Defined.

(** ** The order in which the store holds the documents *)

Lemma calls_to_perm (e : option string) (coll coll' : list Statistic) :
  Permutation coll coll' -> calls_to e coll = calls_to e coll'.
Proof.
  intros P; unfold calls_to.
  apply (Permutation_count_occ url_eq_dec), Permutation_map, P.
Qed.

(** An endpoint with a call has its group. *)
Lemma group_of_endpoint (docs : list Statistic) (gs : list Group)
      (e : option string) :
  groups_of docs gs -> 0 < calls_to e docs ->
  In (mkGroup e (calls_to e docs)) gs.
Proof.
  intros G Hpos.
  assert (He : In e (map _id gs)).
  { apply (groups_ids _ _ G), (count_occ_In url_eq_dec), Hpos. }
  apply in_map_iff in He; destruct He as ([k c] & Hid & Hh).
  simpl in Hid; subst k.
  pose proof (groups_count _ _ G _ Hh) as Hc; simpl in Hc.
  rewrite <- Hc; exact Hh.
Qed.

(** X10. The three queries do not depend on the order in which the
    collection holds its documents: over two collections with the same
    documents in any two orders, and with any two engines,
    [endpoint-counts] holds the same count for every endpoint,
    [most-called] carries the same count, [latest] carries the same
    [timestamp], and each query answers with the same status. *)
Theorem queries_ignore_storage_order
  (w w' : World) (coll coll' : list Statistic) :
  Permutation coll coll' -> reachable w = true -> reachable w' = true ->
  (forall e, count_for e (entries (get_stats_endpoint_counts w coll))
             = count_for e (entries (get_stats_endpoint_counts w' coll')))
  /\ called_count (get_stats_most_called w coll)
     = called_count (get_stats_most_called w' coll')
  /\ latest_timestamp (get_stats_latest w coll)
     = latest_timestamp (get_stats_latest w' coll')
  /\ status (get_stats_endpoint_counts w coll)
     = status (get_stats_endpoint_counts w' coll')
  /\ status (get_stats_most_called w coll)
     = status (get_stats_most_called w' coll')
  /\ status (get_stats_latest w coll) = status (get_stats_latest w' coll').
Proof.
  intros P Hup Hup'.
  split.
  { intros e; rewrite !count_for_endpoint by assumption.
    apply calls_to_perm, P. }
  destruct coll as [|d0 coll0] eqn:Ecoll.
  - apply Permutation_nil in P; subst coll'.
    destruct (handlers_on_empty w Hup) as (L1 & M1 & E1 & _).
    destruct (handlers_on_empty w' Hup') as (L2 & M2 & E2 & _).
    rewrite L1, L2, M1, M2, E1, E2; repeat split; reflexivity.
  - rewrite <- Ecoll in *.
    assert (Hne : coll <> []) by (rewrite Ecoll; discriminate).
    assert (Hne' : coll' <> []).
    { intros E; rewrite E in P; apply Permutation_sym, Permutation_nil in P.
      contradiction. }
    destruct (latest_top w coll Hne Hup) as (d1 & L1 & I1 & T1).
    destruct (latest_top w' coll' Hne' Hup') as (d2 & L2 & I2 & T2).
    destruct (most_called_top w coll Hne Hup) as (g1 & M1 & J1 & C1).
    destruct (most_called_top w' coll' Hne' Hup') as (g2 & M2 & J2 & C2).
    destruct (endpoint_counts_up w coll Hup) as [R1 _].
    destruct (endpoint_counts_up w' coll' Hup') as [R2 _].
    pose proof (group_by_url_spec coll) as G1.
    pose proof (group_by_url_spec coll') as G2.
    rewrite L1, L2, M1, M2, R1, R2.
    unfold latest_timestamp, called_count; simpl.
    repeat split.
    + f_equal; apply Nat.le_antisymm.
      * pose proof (groups_count _ _ G1 _ J1) as Hc.
        pose proof (groups_positive _ _ _ G1 J1) as Hp.
        rewrite (calls_to_perm _ _ _ P) in Hc; rewrite Hc in Hp |- *.
        apply (C2 _ (group_of_endpoint _ _ _ G2 Hp)).
      * pose proof (groups_count _ _ G2 _ J2) as Hc.
        pose proof (groups_positive _ _ _ G2 J2) as Hp.
        rewrite <- (calls_to_perm _ _ _ P) in Hc; rewrite Hc in Hp |- *.
        apply (C1 _ (group_of_endpoint _ _ _ G1 Hp)).
    + f_equal; apply timestamp_leb_antisym.
      * apply T2; eapply Permutation_in; eauto.
      * apply T1; eapply Permutation_in; [symmetry|]; eauto.
    + destruct coll; [contradiction|]; destruct coll'; [contradiction|].
      reflexivity.
Qed.

Lemma queries_ignore_storage_order_witness :
  Permutation Sample.tied (rev Sample.tied)
  /\ reachable Sample.later = true /\ reachable Sample.later_reversed = true
  /\ called_count (get_stats_most_called Sample.later Sample.tied)
     = called_count (get_stats_most_called Sample.later_reversed
                       (rev Sample.tied)).
Proof.
  split; [apply Permutation_rev|]; split; [reflexivity|].
  split; [reflexivity|].
  exact (proj1 (proj2 (queries_ignore_storage_order Sample.later
                         Sample.later_reversed Sample.tied (rev Sample.tied)
                         (Permutation_rev Sample.tied) eq_refl eq_refl))).
Defined.
